(** * code2project: the import analyzer and the project generator

    A shallow embedding of [services/analyzer.ts] ([analyzeDependencies],
    [cleanPackageName]) and [services/zipGenerator.ts]
    ([generateProjectZip]), with the properties of the specification
    stated over it.

    Conventions of the embedding.
    - A JavaScript string is a [string]; a character is one code unit in
      the range 0..255 (the Latin-1 part of UTF-16).  [\s], [.] and
      [toLowerCase] are written out for that range.
    - A [Set<string>] is a duplicate-free list in insertion order, which
      is what [Array.from] returns.
    - A plain object used as a map is an association list in the order in
      which JavaScript enumerates its own keys.
    - The JSZip instance is a finite map from a path to the object stored
      under it; directory entries and the final compression step are left
      out, the generator returns the table of files. *)

From Stdlib Require Import Ascii ZArith Lia.
From stdpp Require Import gmap strings list fin_maps.

(** ** Characters *)

Module Char.

Definition code (c : ascii) : nat := nat_of_ascii c.

(** The double quote, U+0022. *)
Definition dquote : ascii := Ascii false true false false false true false false.
(** Line feed, U+000A. *)
Definition lf : ascii := Ascii false true false true false false false false.

Definition in_range (lo hi : nat) (c : ascii) : bool :=
  (lo <=? code c) && (code c <=? hi).

(** [\s] without the [u] flag, on code units below 256: TAB, LF, VT, FF,
    CR, space and the no-break space. *)
Definition is_space (c : ascii) : bool :=
  in_range 9 13 c || (code c =? 32) || (code c =? 160).

(** [.] without the [s] flag: anything but a line terminator. *)
Definition is_dot (c : ascii) : bool :=
  negb ((code c =? 10) || (code c =? 13)).

(** The class of the two quote characters, and its complement. *)
Definition is_quote (c : ascii) : bool :=
  (code c =? 39) || (code c =? 34).
Definition not_quote (c : ascii) : bool := negb (is_quote c).

Definition is_upper (c : ascii) : bool := in_range 65 90 c.
Definition is_lower (c : ascii) : bool := in_range 97 122 c.
Definition is_digit (c : ascii) : bool := in_range 48 57 c.

(** [a-zA-Z0-9]. *)
Definition is_alnum (c : ascii) : bool :=
  is_lower c || is_upper c || is_digit c.

(** The characters [toLowerCase] changes below U+0100: A-Z and the
    Latin-1 capitals U+00C0..U+00DE except the multiplication sign. *)
Definition is_uppercase (c : ascii) : bool :=
  is_upper c || (in_range 192 222 c && negb (code c =? 215)).

Definition to_lower (c : ascii) : ascii :=
  if is_uppercase c then ascii_of_nat (code c + 32) else c.

End Char.

(** ** Strings *)

Module Str.

Definition of_char (c : ascii) : string := String c EmptyString.

Definition dq : string := of_char Char.dquote.
Definition nl : string := of_char Char.lf.

Fixpoint length (s : string) : nat :=
  match s with
  | EmptyString => 0
  | String _ s' => S (length s')
  end.

Fixpoint app (s t : string) : string :=
  match s with
  | EmptyString => t
  | String c s' => String c (app s' t)
  end.

Fixpoint map (f : ascii -> ascii) (s : string) : string :=
  match s with
  | EmptyString => EmptyString
  | String c s' => String (f c) (map f s')
  end.

Fixpoint filter (p : ascii -> bool) (s : string) : string :=
  match s with
  | EmptyString => EmptyString
  | String c s' => if p c then String c (filter p s') else filter p s'
  end.

Fixpoint forallb (p : ascii -> bool) (s : string) : bool :=
  match s with
  | EmptyString => true
  | String c s' => p c && forallb p s'
  end.

Fixpoint take (n : nat) (s : string) : string :=
  match n, s with
  | S n', String c s' => String c (take n' s')
  | _, _ => EmptyString
  end.

(** [strip_prefix p s] is [Some t] when [s = p ++ t]. *)
Fixpoint strip_prefix (p s : string) : option string :=
  match p with
  | EmptyString => Some s
  | String a p' =>
      match s with
      | String b s' => if Ascii.eqb a b then strip_prefix p' s' else None
      | EmptyString => None
      end
  end.

(** [s.startsWith(p)]. *)
Definition startsWith (p s : string) : bool :=
  match strip_prefix p s with Some _ => true | None => false end.

(** [s.includes(p)]. *)
Fixpoint includes (p s : string) : bool :=
  startsWith p s ||
  match s with
  | EmptyString => false
  | String _ s' => includes p s'
  end.

(** [s.split(sep)] for a one-character separator: the pieces between the
    separators, never an empty list. *)
Fixpoint split (sep : ascii) (s : string) : list string :=
  match s with
  | EmptyString => [EmptyString]
  | String c s' =>
      if Ascii.eqb c sep then EmptyString :: split sep s'
      else match split sep s' with
           | p :: ps => String c p :: ps
           | [] => [of_char c]
           end
  end.

Fixpoint join (sep : string) (l : list string) : string :=
  match l with
  | [] => EmptyString
  | [x] => x
  | x :: l' => app x (app sep (join sep l'))
  end.

Definition concat (l : list string) : string := fold_right app EmptyString l.

(** The lines of a template literal, each followed by a line feed. *)
Definition lines (l : list string) : string :=
  concat (List.map (fun x => app x nl) l).

(** A value used as a condition: the empty string is falsy. *)
Definition truthy (s : string) : bool :=
  match s with EmptyString => false | _ => true end.

End Str.

Infix "^^" := Str.app (at level 60, right associativity).

(** ** Regular expressions

    The fragment of the JavaScript pattern language the two modules use,
    matched the way the engine does: by backtracking, alternatives from
    left to right, a greedy quantifier longest first and a lazy one
    shortest first.  Quantifiers only occur over a single character class
    in the source, so they are kept in that form and the matcher is
    structurally recursive. *)

Module Regex.

Inductive regex : Type :=
| Lit (s : string)               (* literal characters *)
| Cls (p : ascii -> bool)        (* one character of a class *)
| Seq (r1 r2 : regex)            (* r1 r2 *)
| Alt (r1 r2 : regex)            (* r1 | r2 *)
| Star (p : ascii -> bool)       (* c* *)
| LazyStar (p : ascii -> bool)   (* c*? *)
| Cap (r : regex)                (* ( r ), the group numbered 1 *)
| Eos.                           (* $ without the m flag *)

(** c+ *)
Definition Plus (p : ascii -> bool) : regex := Seq (Cls p) (Star p).

(** What a successful match leaves: the text after the match and what
    group 1 captured, if it took part. *)
Definition result : Type := string * option string.

Section Quantifiers.
Context {R : Type} (p : ascii -> bool) (k : string -> option R).

Fixpoint star_greedy (s : string) : option R :=
  match s with
  | String c s' =>
      if p c then
        match star_greedy s' with
        | Some x => Some x
        | None => k s
        end
      else k s
  | EmptyString => k s
  end.

Fixpoint star_lazy (s : string) : option R :=
  match k s with
  | Some x => Some x
  | None =>
      match s with
      | String c s' => if p c then star_lazy s' else None
      | EmptyString => None
      end
  end.
End Quantifiers.

(** The text [s] has lost to reach its suffix [s']. *)
Definition consumed (s s' : string) : string :=
  Str.take (Str.length s - Str.length s') s.

Fixpoint rmatch {R : Type} (r : regex) (s : string) (cap : option string)
    (k : string -> option string -> option R) : option R :=
  match r with
  | Lit l =>
      match Str.strip_prefix l s with
      | Some s' => k s' cap
      | None => None
      end
  | Cls p =>
      match s with
      | String c s' => if p c then k s' cap else None
      | EmptyString => None
      end
  | Seq r1 r2 => rmatch r1 s cap (fun s' cap' => rmatch r2 s' cap' k)
  | Alt r1 r2 =>
      match rmatch r1 s cap k with
      | Some x => Some x
      | None => rmatch r2 s cap k
      end
  | Star p => star_greedy p (fun s' => k s' cap) s
  | LazyStar p => star_lazy p (fun s' => k s' cap) s
  | Cap r' => rmatch r' s cap (fun s' _ => k s' (Some (consumed s s')))
  | Eos =>
      match s with
      | EmptyString => k s cap
      | String _ _ => None
      end
  end.

(** A match that starts exactly at the head of [s]. *)
Definition match_here (r : regex) (s : string) : option result :=
  rmatch r s None (fun s' cap => Some (s', cap)).

(** [r.exec] from [lastIndex]: the leftmost position at which a match
    starts, the end of the text included. *)
Fixpoint exec (r : regex) (s : string) : option result :=
  match match_here r s with
  | Some x => Some x
  | None =>
      match s with
      | String _ s' => exec r s'
      | EmptyString => None
      end
  end.

(** A pattern progresses when each of its matches takes a character. *)
Definition progresses (r : regex) : Prop :=
  forall s rest cap, match_here r s = Some (rest, cap) ->
                     Str.length rest < Str.length s.

(** [s.match(r)] used as a condition, for a pattern without the g flag. *)
Definition test (r : regex) (s : string) : bool :=
  match exec r s with Some _ => true | None => false end.

(** [while ((match = r.exec(code)) !== null) body(match[1])] for a pattern
    with the g flag: the captures of the successive matches, each search
    starting where the previous match ended.  [None] when [fuel] iterations
    did not reach the final [null]. *)
Fixpoint exec_loop (fuel : nat) (r : regex) (s : string) : option (list (option string)) :=
  match fuel with
  | 0 => None
  | S fuel' =>
      match exec r s with
      | None => Some []
      | Some (rest, cap) =>
          match exec_loop fuel' r rest with
          | Some caps => Some (cap :: caps)
          | None => None
          end
      end
  end.

(** Every match of the patterns below takes at least one character, so
    the loop ends within [length s + 1] iterations (proved further down). *)
Definition match_all (r : regex) (s : string) : list (option string) :=
  default [] (exec_loop (S (Str.length s)) r s).

End Regex.

(** ** The analyzer: services/analyzer.ts *)

Module Analyzer.
Import Regex.

(** [Set<string>]: [add] keeps the first insertion, [delete] removes. *)
Definition set_add (x : string) (s : list string) : list string :=
  if decide (x ∈ s) then s else s ++ [x].

Definition set_delete (x : string) (s : list string) : list string :=
  List.filter (fun y => negb (bool_decide (y = x))) s.

Record AnalysisResult : Type := {
  dependencies : list string;
  localImports : list string
}.

(** [importRegex]:
    /(?:import|require)\s*(?: \(\s* | .*?from\s* )[Q]([^Q]+)[Q]/g
    where Q stands for the two quote characters and the blanks inside the
    second group are not part of the pattern. *)
Definition importRegex : regex :=
  Seq (Alt (Lit "import") (Lit "require"))
 (Seq (Star Char.is_space)
 (Seq (Alt (Seq (Lit "(") (Star Char.is_space))
           (Seq (LazyStar Char.is_dot) (Seq (Lit "from") (Star Char.is_space))))
 (Seq (Cls Char.is_quote)
 (Seq (Cap (Plus Char.not_quote))
      (Cls Char.is_quote))))).

(** [sideEffectImportRegex]: /import\s+[Q]([^Q]+)[Q]/g *)
Definition sideEffectImportRegex : regex :=
  Seq (Lit "import")
 (Seq (Plus Char.is_space)
 (Seq (Cls Char.is_quote)
 (Seq (Cap (Plus Char.not_quote))
      (Cls Char.is_quote)))).

Definition starts_local (path : string) : bool :=
  Str.startsWith "." path || Str.startsWith "/" path.

(** [cleanPackageName]; [None] is the [null] it returns. *)
Definition cleanPackageName (name : string) : option string :=
  if negb (Str.truthy name) then None
  else if starts_local name then None
  else if Str.startsWith "@" name then
    match Str.split "/" name with
    | p0 :: p1 :: _ => Some (p0 ^^ "/" ^^ p1)
    | _ => Some name
    end
  else
    match Str.split "/" name with
    | p0 :: _ => Some p0
    | [] => None
    end.

(** The two sets the closure [processPath] updates. *)
Record sets : Type := {
  deps : list string;
  locals : list string
}.

(** [processPath]; the argument is [match[1]], which is [undefined] when
    the group took no part in the match. *)
Definition processPath (path : option string) (st : sets) : sets :=
  match path with
  | None => st
  | Some p =>
      if negb (Str.truthy p) then st
      else if starts_local p then
        {| deps := deps st; locals := set_add p (locals st) |}
      else
        match cleanPackageName p with
        | Some pkg =>
            if Str.truthy pkg
            then {| deps := set_add pkg (deps st); locals := locals st |}
            else st
        | None => st
        end
  end.

Definition process_all (paths : list (option string)) (st : sets) : sets :=
  fold_left (fun st p => processPath p st) paths st.

(** The implicit dependency on the animation library. *)
Definition smart_detection (code : string) (st : sets) : sets :=
  if Str.includes "motion." code || Str.includes "AnimatePresence" code
  then {| deps := set_add "framer-motion" (deps st); locals := locals st |}
  else st.

Definition denylist : list string := ["react"; "react-dom"; "fs"; "path"].

Definition clean_up (st : sets) : sets :=
  {| deps := fold_left (fun d x => set_delete x d) denylist (deps st);
     locals := locals st |}.

(** What the body does once the two loops have produced their captures. *)
Definition finish (code : string) (caps1 caps2 : list (option string)) : AnalysisResult :=
  let st := process_all caps2 (process_all caps1 {| deps := []; locals := [] |}) in
  let st := clean_up (smart_detection code st) in
  {| dependencies := deps st; localImports := locals st |}.

(** [analyzeDependencies] with a bound on the iterations of each loop. *)
Definition analyze_fuel (fuel : nat) (code : string) : option AnalysisResult :=
  match exec_loop fuel importRegex code with
  | None => None
  | Some caps1 =>
      match exec_loop fuel sideEffectImportRegex code with
      | None => None
      | Some caps2 => Some (finish code caps1 caps2)
      end
  end.

Definition analyzeDependencies (code : string) : AnalysisResult :=
  finish code (match_all importRegex code) (match_all sideEffectImportRegex code).

(** The paths the two loops hand to [processPath], in that order. *)
Definition extracted (code : string) : list (option string) :=
  match_all importRegex code ++ match_all sideEffectImportRegex code.

(** A path that [processPath] treats as a package reference. *)
Definition external (path : string) : bool :=
  Str.truthy path && negb (starts_local path).

End Analyzer.

(** ** JSON.stringify(value, null, 2) *)

Module JSON.

#[local] Unset Elimination Schemes.
Inductive json : Type :=
| JString (s : string)
| JBool (b : bool)
| JArray (items : list json)
| JObject (members : list (string * json)).
#[local] Set Elimination Schemes.

Definition backslash : string := Str.of_char (ascii_of_nat 92).

Definition hex_digit (n : nat) : string :=
  Str.of_char (ascii_of_nat (if n <? 10 then 48 + n else 87 + n)).

(** One code unit of a quoted string. *)
Definition quote_char (c : ascii) : string :=
  let n := Char.code c in
  if n =? 8 then backslash ^^ "b"
  else if n =? 9 then backslash ^^ "t"
  else if n =? 10 then backslash ^^ "n"
  else if n =? 12 then backslash ^^ "f"
  else if n =? 13 then backslash ^^ "r"
  else if n =? 34 then backslash ^^ Str.dq
  else if n =? 92 then backslash ^^ backslash
  else if n <? 32 then backslash ^^ "u00" ^^ hex_digit (n / 16) ^^ hex_digit (n mod 16)
  else Str.of_char c.

Fixpoint quote_body (s : string) : string :=
  match s with
  | EmptyString => EmptyString
  | String c s' => quote_char c ^^ quote_body s'
  end.

Definition quote (s : string) : string := Str.dq ^^ quote_body s ^^ Str.dq.

(** [serialize ind v]: the text of [v] at indentation [ind], with a gap of
    two spaces per level. *)
Fixpoint serialize (ind : string) (v : json) : string :=
  let ind' := ind ^^ "  " in
  let sep := "," ^^ Str.nl ^^ ind' in
  match v with
  | JString s => quote s
  | JBool b => if b then "true" else "false"
  | JArray [] => "[]"
  | JArray items =>
      let texts :=
        (fix go (l : list json) : list string :=
           match l with
           | [] => []
           | x :: l' => serialize ind' x :: go l'
           end) items in
      "[" ^^ Str.nl ^^ ind' ^^ Str.join sep texts ^^ Str.nl ^^ ind ^^ "]"
  | JObject [] => "{}"
  | JObject members =>
      let texts :=
        (fix go (l : list (string * json)) : list string :=
           match l with
           | [] => []
           | (k, x) :: l' => (quote k ^^ ": " ^^ serialize ind' x) :: go l'
           end) members in
      "{" ^^ Str.nl ^^ ind' ^^ Str.join sep texts ^^ Str.nl ^^ ind ^^ "}"
  end.

Definition stringify (v : json) : string := serialize EmptyString v.

End JSON.

(** ** Plain objects used as maps *)

Module Obj.

(** The own string-valued properties, in enumeration order: the keys that
    are array indices first, in ascending order, then the others in the
    order of their creation. *)
Definition obj : Type := list (string * string).

Definition digit_value (c : ascii) : option N :=
  if Char.is_digit c then Some (N.of_nat (Char.code c - 48)) else None.

Fixpoint digits_value (acc : N) (s : string) : option N :=
  match s with
  | EmptyString => Some acc
  | String c s' =>
      match digit_value c with
      | Some d => digits_value (10 * acc + d)%N s'
      | None => None
      end
  end.

(** A key is an array index when it is the canonical decimal form of an
    integer below 2^32 - 1. *)
Definition array_index (k : string) : option N :=
  match k with
  | EmptyString => None
  | String c rest =>
      if (Char.code c =? 48) && Str.truthy rest then None
      else match digits_value 0%N k with
           | Some n => if (n <? 4294967295)%N then Some n else None
           | None => None
           end
  end.

(** The property names every object literal inherits from
    [Object.prototype]; reading one of them yields a truthy value. *)
Definition inherited : list string :=
  [ "constructor"; "__defineGetter__"; "__defineSetter__"; "hasOwnProperty";
    "__lookupGetter__"; "__lookupSetter__"; "isPrototypeOf";
    "propertyIsEnumerable"; "toString"; "valueOf"; "__proto__";
    "toLocaleString" ].

Fixpoint get_own (k : string) (o : obj) : option string :=
  match o with
  | [] => None
  | (k', v) :: o' => if bool_decide (k' = k) then Some v else get_own k o'
  end.

(** [o[k]] used as a condition. *)
Definition get_truthy (k : string) (o : obj) : bool :=
  match get_own k o with
  | Some v => Str.truthy v
  | None => bool_decide (k ∈ inherited)
  end.

(** Where a new key goes. *)
Fixpoint add_key (k : string) (v : string) (o : obj) : obj :=
  match o with
  | [] => [(k, v)]
  | (k', v') :: o' =>
      match array_index k, array_index k' with
      | Some n, Some n' =>
          if (n <? n')%N then (k, v) :: o else (k', v') :: add_key k v o'
      | Some _, None => (k, v) :: o
      | None, _ => (k', v') :: add_key k v o'
      end
  end.

Fixpoint replace_key (k : string) (v : string) (o : obj) : obj :=
  match o with
  | [] => []
  | (k', v') :: o' =>
      if bool_decide (k' = k) then (k, v) :: o' else (k', v') :: replace_key k v o'
  end.

(** [o[k] = v], for a key other than [__proto__]. *)
Definition set (k : string) (v : string) (o : obj) : obj :=
  match get_own k o with
  | Some _ => replace_key k v o
  | None => add_key k v o
  end.

Definition to_json (o : obj) : JSON.json :=
  JSON.JObject (List.map (fun kv => (fst kv, JSON.JString (snd kv))) o).

End Obj.

(** ** The generator: services/zipGenerator.ts *)

Module Generator.
Import Regex.

Definition dq : string := Str.dq.
Definition nl : string := Str.nl.

Inductive FileType : Type := JS | JSX | TS | TSX | UNKNOWN.

Record GeneratedProjectConfig : Type := {
  fileName : string;
  fileContent : string;
  projectName : string;
  dependencies : list string;
  localImports : list string
}.

Definition isTS (fileType : FileType) : bool :=
  match fileType with
  | TS | TSX => true
  | _ => false
  end.

Definition ext (fileType : FileType) : string :=
  if isTS fileType then "ts" else "js".

Definition jsxExt (fileType : FileType) : string :=
  if isTS fileType then "tsx" else "jsx".

(** *** 1. package.json *)

Definition baseDependencies : Obj.obj :=
  [ ("react", "^19.0.0");
    ("react-dom", "^19.0.0");
    ("clsx", "^2.1.0");
    ("tailwind-merge", "^2.2.0");
    ("lucide-react", "latest");
    ("framer-motion", "^11.0.0");
    ("tailwindcss-animate", "^1.0.7");
    ("@tailwindcss/typography", "^0.5.10");
    ("@tailwindcss/forms", "^0.5.7");
    ("date-fns", "latest");
    ("recharts", "latest") ].

(** [config.dependencies.forEach(dep => ...)] *)
Definition mergeDependencies (deps : list string) : Obj.obj :=
  fold_left
    (fun o dep => if negb (Obj.get_truthy dep o) then Obj.set dep "latest" o else o)
    deps baseDependencies.

(** [s.replace(/\s+/g, '-')]; [in_run] tells that the previous character
    belongs to the run of blanks being replaced. *)
Fixpoint replace_spaces (in_run : bool) (s : string) : string :=
  match s with
  | EmptyString => EmptyString
  | String c s' =>
      if Char.is_space c then
        if in_run then replace_spaces true s'
        else String "-" (replace_spaces true s')
      else String c (replace_spaces false s')
  end.

(** [s.toLowerCase()] on the code units covered here, those below 256,
    where it maps unit to unit.  Outside that range the function of the
    language may give two units for one, so nothing stated of [toLowerCase]
    below compares the length of its result with that of its argument. *)
Definition toLowerCase (s : string) : string := Str.map Char.to_lower s.

Definition slug (name : string) : string :=
  replace_spaces false (toLowerCase name).

Record PackageJson : Type := {
  name : string;
  private : bool;
  version : string;
  type : string;
  scripts : Obj.obj;
  pkg_dependencies : Obj.obj;
  devDependencies : Obj.obj
}.

Definition packageJson (config : GeneratedProjectConfig) (fileType : FileType) : PackageJson :=
  {| name := slug (projectName config);
     private := true;
     version := "0.1.0";
     type := "module";
     scripts := [ ("dev", "vite"); ("build", "vite build"); ("preview", "vite preview") ];
     pkg_dependencies := mergeDependencies (dependencies config);
     devDependencies :=
       [ ("@types/react", "^19.0.0");
         ("@types/react-dom", "^19.0.0");
         ("@vitejs/plugin-react", "^4.3.4");
         ("vite", "latest");
         ("tailwindcss", "^4.0.0");
         ("@tailwindcss/postcss", "^4.0.0");
         ("postcss", "^8.5.1");
         ("sass", "^1.70.0") ]
       ++ (if isTS fileType
           then [ ("typescript", "^5.7.2"); ("@types/node", "^20.0.0") ]
           else []) |}.

Definition packageJson_json (p : PackageJson) : JSON.json :=
  JSON.JObject
    [ ("name", JSON.JString (name p));
      ("private", JSON.JBool (private p));
      ("version", JSON.JString (version p));
      ("type", JSON.JString (type p));
      ("scripts", Obj.to_json (scripts p));
      ("dependencies", Obj.to_json (pkg_dependencies p));
      ("devDependencies", Obj.to_json (devDependencies p)) ].

(** *** 2. Configuration files *)

(** [viteConfig] *)
Definition viteConfig : string :=
  nl ^^ Str.lines [
    "import { defineConfig } from 'vite'";
    "import react from '@vitejs/plugin-react'";
    "import path from 'path'";
    EmptyString;
    "export default defineConfig({";
    "  plugins: [react()],";
    "  resolve: {";
    "    alias: {";
    "      " ^^ dq ^^ "@" ^^ dq ^^ ": path.resolve(__dirname, " ^^ dq ^^ "./src" ^^ dq ^^ "),";
    "    },";
    "  },";
    "  server: {";
    "    host: true,";
    "    port: 3000";
    "  }";
    "})"
  ].

Definition postcssConfig : string :=
  "export default { plugins: { '@tailwindcss/postcss': {} } }".

Definition tsConfig : JSON.json :=
  JSON.JObject
    [ ("compilerOptions", JSON.JObject
        [ ("target", JSON.JString "ES2020");
          ("useDefineForClassFields", JSON.JBool true);
          ("lib", JSON.JArray
             [ JSON.JString "ES2020"; JSON.JString "DOM"; JSON.JString "DOM.Iterable" ]);
          ("module", JSON.JString "ESNext");
          ("skipLibCheck", JSON.JBool true);
          ("moduleResolution", JSON.JString "bundler");
          ("allowImportingTsExtensions", JSON.JBool true);
          ("resolveJsonModule", JSON.JBool true);
          ("isolatedModules", JSON.JBool true);
          ("noEmit", JSON.JBool true);
          ("jsx", JSON.JString "react-jsx");
          ("strict", JSON.JBool true);
          ("noUnusedLocals", JSON.JBool false);
          ("noUnusedParameters", JSON.JBool false);
          ("noFallthroughCasesInSwitch", JSON.JBool true);
          ("baseUrl", JSON.JString ".");
          ("paths", JSON.JObject
             [ ("@/*", JSON.JArray [ JSON.JString "./src/*" ]) ]) ]);
      ("include", JSON.JArray [ JSON.JString "src" ]);
      ("references", JSON.JArray
         [ JSON.JObject [ ("path", JSON.JString "./tsconfig.node.json") ] ]) ].

Definition tsConfigNode : JSON.json :=
  JSON.JObject
    [ ("compilerOptions", JSON.JObject
        [ ("composite", JSON.JBool true);
          ("skipLibCheck", JSON.JBool true);
          ("module", JSON.JString "ESNext");
          ("moduleResolution", JSON.JString "bundler");
          ("allowSyntheticDefaultImports", JSON.JBool true) ]);
      ("include", JSON.JArray [ JSON.JString "vite.config.ts" ]) ].

(** *** 3. Source files and index.html *)

(** [html] *)
Definition html (projectName : string) (jsxExt : string) : string :=
  nl ^^ Str.lines [
    "<!doctype html>";
    "<html lang=" ^^ dq ^^ "en" ^^ dq ^^ ">";
    "  <head>";
    "    <meta charset=" ^^ dq ^^ "UTF-8" ^^ dq ^^ " />";
    "    <meta name=" ^^ dq ^^ "viewport" ^^ dq ^^ " content=" ^^ dq ^^ "width=device-width, initial-scale=1.0" ^^ dq ^^ " />";
    "    <title>" ^^ projectName ^^ "</title>";
    "    <link href=" ^^ dq ^^ "https://fonts.googleapis.com/css2?family=Inter:wght@300;400;500;600;700&family=Vazirmatn:wght@300;400;500;700&display=swap" ^^ dq ^^ " rel=" ^^ dq ^^ "stylesheet" ^^ dq ^^ ">";
    "  </head>";
    "  <body>";
    "    <div id=" ^^ dq ^^ "root" ^^ dq ^^ "></div>";
    "    <script type=" ^^ dq ^^ "module" ^^ dq ^^ " src=" ^^ dq ^^ "/src/main." ^^ jsxExt ^^ dq ^^ "></script>";
    "  </body>";
    "</html>"
  ].

(** [mainContent] *)
Definition mainContent : string :=
  nl ^^ Str.lines [
    "import React from 'react'";
    "import ReactDOM from 'react-dom/client'";
    "import App from './App' ";
    "import './index.css'";
    EmptyString;
    "const root = document.getElementById('root')";
    "if (root) {";
    "  ReactDOM.createRoot(root).render(";
    "    <React.StrictMode>";
    "      <div className=" ^^ dq ^^ "min-h-screen bg-background text-foreground antialiased font-sans selection:bg-primary/20" ^^ dq ^^ ">";
    "        <App />";
    "      </div>";
    "    </React.StrictMode>,";
    "  )";
    "}"
  ].

Definition appFileName (fileType : FileType) : string :=
  "App." ^^ (if isTS fileType then "tsx" else "jsx").

(** *** 4. Ghost files *)

(** [s.replace(/^p/, '')] for a literal [p]. *)
Definition remove_leading (p s : string) : string :=
  match Str.strip_prefix p s with
  | Some t => t
  | None => s
  end.

Definition cleanPath (importPath : string) : string :=
  remove_leading "/" (remove_leading "./" importPath).

(** [path.split('/').pop() || ''] *)
Definition lastPart (path : string) : string :=
  List.last (Str.split "/" path) EmptyString.

Fixpoint alternatives (l : list string) : regex :=
  match l with
  | [] => Lit EmptyString
  | [x] => Lit x
  | x :: l' => Alt (Lit x) (alternatives l')
  end.

(** /\.(e1|e2|...)$/ *)
Definition extensionRegex (exts : list string) : regex :=
  Seq (Lit ".") (Seq (Cap (alternatives exts)) Eos).

Definition styleExtensions : list string := ["css"; "scss"; "sass"; "less"; "styl"].
Definition imageExtensions : list string :=
  ["png"; "jpg"; "jpeg"; "svg"; "gif"; "webp"; "ico"; "bmp"].
Definition jsonExtensions : list string := ["json"].

Definition placeholderStyle : string :=
  "/* Placeholder style - Generated by CodeToProject */".

Definition placeholderImage : string :=
  "<svg xmlns=" ^^ dq ^^ "http://www.w3.org/2000/svg" ^^ dq ^^ " viewBox=" ^^ dq ^^ "0 0 100 100" ^^ dq ^^ " style=" ^^ dq ^^ "background:#f1f5f9;" ^^ dq ^^ "><text x=" ^^ dq ^^ "50" ^^ dq ^^ " y=" ^^ dq ^^ "50" ^^ dq ^^ " dominant-baseline=" ^^ dq ^^ "middle" ^^ dq ^^ " text-anchor=" ^^ dq ^^ "middle" ^^ dq ^^ " font-family=" ^^ dq ^^ "sans-serif" ^^ dq ^^ " fill=" ^^ dq ^^ "#64748b" ^^ dq ^^ " font-weight=" ^^ dq ^^ "bold" ^^ dq ^^ ">IMAGE</text></svg>".

(** [lastPart.replace(/[^a-zA-Z0-9]/g, '') || 'Component'] *)
Definition componentName (lastPart : string) : string :=
  let stripped := Str.filter Char.is_alnum lastPart in
  if Str.truthy stripped then stripped else "Component".

(** [dummyContent] *)
Definition dummyContent (cleanPath : string) (componentName : string) : string :=
  nl ^^ Str.lines [
    "import React from 'react';";
    "// Ghost Component generated to prevent build errors";
    "// Missing file: " ^^ cleanPath;
    "const " ^^ componentName ^^ " = (props: any) => (";
    "  <div className=" ^^ dq ^^ "p-4 border border-dashed border-amber-300 bg-amber-50 rounded text-center" ^^ dq ^^ ">";
    "    <p className=" ^^ dq ^^ "text-amber-600 font-mono text-xs" ^^ dq ^^ ">Missing Component: " ^^ cleanPath ^^ "</p>";
    "  </div>";
    ");";
    "export default " ^^ componentName ^^ ";";
    "export const " ^^ componentName ^^ "Named = " ^^ componentName ^^ ";"
  ].

(** The component written when no recognised extension made the loop body
    return early. *)
Definition ghostComponent (extension path : string) : string * string :=
  let fullPath := if Str.truthy extension then path ^^ extension else path in
  (fullPath, dummyContent path (componentName (lastPart path))).

(** The body of [config.localImports.forEach]: the name and the content it
    passes to [src.file]. *)
Definition ghostFile (fileType : FileType) (importPath : string) : string * string :=
  let path := cleanPath importPath in
  let last := lastPart path in
  if Str.includes "." last then
    if test (extensionRegex styleExtensions) last then (path, placeholderStyle)
    else if test (extensionRegex imageExtensions) last then (path, placeholderImage)
    else if test (extensionRegex jsonExtensions) last then (path, "{}")
    else ghostComponent EmptyString path
  else ghostComponent (if isTS fileType then ".tsx" else ".jsx") path.

(** *** 5. index.css *)

(** [cssContent] *)
Definition cssContent : string :=
  nl ^^ Str.lines [
    "@import " ^^ dq ^^ "tailwindcss" ^^ dq ^^ ";";
    EmptyString;
    "@plugin " ^^ dq ^^ "tailwindcss-animate" ^^ dq ^^ ";";
    "@plugin " ^^ dq ^^ "@tailwindcss/typography" ^^ dq ^^ ";";
    "@plugin " ^^ dq ^^ "@tailwindcss/forms" ^^ dq ^^ ";";
    EmptyString;
    "@theme {";
    "  --font-sans: 'Inter', 'Vazirmatn', sans-serif;";
    "  --radius-lg: var(--radius);";
    "  --radius-md: calc(var(--radius) - 2px);";
    "  --radius-sm: calc(var(--radius) - 4px);";
    EmptyString;
    "  --color-background: var(--background);";
    "  --color-foreground: var(--foreground);";
    "  --color-card: var(--card);";
    "  --color-card-foreground: var(--card-foreground);";
    "  --color-popover: var(--popover);";
    "  --color-popover-foreground: var(--popover-foreground);";
    "  --color-primary: var(--primary);";
    "  --color-primary-foreground: var(--primary-foreground);";
    "  --color-secondary: var(--secondary);";
    "  --color-secondary-foreground: var(--secondary-foreground);";
    "  --color-muted: var(--muted);";
    "  --color-muted-foreground: var(--muted-foreground);";
    "  --color-accent: var(--accent);";
    "  --color-accent-foreground: var(--accent-foreground);";
    "  --color-destructive: var(--destructive);";
    "  --color-destructive-foreground: var(--destructive-foreground);";
    "  --color-border: var(--border);";
    "  --color-input: var(--input);";
    "  --color-ring: var(--ring);";
    EmptyString;
    "  --animate-accordion-down: accordion-down 0.2s ease-out;";
    "  --animate-accordion-up: accordion-up 0.2s ease-out;";
    EmptyString;
    "  @keyframes accordion-down {";
    "    from { height: 0 }";
    "    to { height: var(--radix-accordion-content-height) }";
    "  }";
    "  @keyframes accordion-up {";
    "    from { height: var(--radix-accordion-content-height) }";
    "    to { height: 0 }";
    "  }";
    "}";
    EmptyString;
    "/*";
    "  Universal Reset & Variable Definitions";
    "  Ensures perfect button alignment and consistent theming.";
    "*/";
    "@layer base {";
    "  :root {";
    "    --background: hsl(0 0% 100%);";
    "    --foreground: hsl(222.2 84% 4.9%);";
    "    --card: hsl(0 0% 100%);";
    "    --card-foreground: hsl(222.2 84% 4.9%);";
    "    --popover: hsl(0 0% 100%);";
    "    --popover-foreground: hsl(222.2 84% 4.9%);";
    "    --primary: hsl(221.2 83.2% 53.3%);";
    "    --primary-foreground: hsl(210 40% 98%);";
    "    --secondary: hsl(210 40% 96.1%);";
    "    --secondary-foreground: hsl(222.2 47.4% 11.2%);";
    "    --muted: hsl(210 40% 96.1%);";
    "    --muted-foreground: hsl(215.4 16.3% 46.9%);";
    "    --accent: hsl(210 40% 96.1%);";
    "    --accent-foreground: hsl(222.2 47.4% 11.2%);";
    "    --destructive: hsl(0 84.2% 60.2%);";
    "    --destructive-foreground: hsl(210 40% 98%);";
    "    --border: hsl(214.3 31.8% 91.4%);";
    "    --input: hsl(214.3 31.8% 91.4%);";
    "    --ring: hsl(221.2 83.2% 53.3%);";
    "    --radius: 0.5rem;";
    "  }";
    EmptyString;
    "  .dark {";
    "    --background: hsl(222.2 84% 4.9%);";
    "    --foreground: hsl(210 40% 98%);";
    "    --card: hsl(222.2 84% 4.9%);";
    "    --card-foreground: hsl(210 40% 98%);";
    "    --popover: hsl(222.2 84% 4.9%);";
    "    --popover-foreground: hsl(210 40% 98%);";
    "    --primary: hsl(217.2 91.2% 59.8%);";
    "    --primary-foreground: hsl(222.2 47.4% 11.2%);";
    "    --secondary: hsl(217.2 32.6% 17.5%);";
    "    --secondary-foreground: hsl(210 40% 98%);";
    "    --muted: hsl(217.2 32.6% 17.5%);";
    "    --muted-foreground: hsl(215 20.2% 65.1%);";
    "    --accent: hsl(217.2 32.6% 17.5%);";
    "    --accent-foreground: hsl(210 40% 98%);";
    "    --destructive: hsl(0 62.8% 30.6%);";
    "    --destructive-foreground: hsl(210 40% 98%);";
    "    --border: hsl(217.2 32.6% 17.5%);";
    "    --input: hsl(217.2 32.6% 17.5%);";
    "    --ring: hsl(212.7 26.8% 83.9%);";
    "  }";
    EmptyString;
    "  * {";
    "    border-color: var(--border);";
    "  }";
    EmptyString;
    "  body {";
    "    background-color: var(--background);";
    "    color: var(--foreground);";
    "    font-feature-settings: " ^^ dq ^^ "rlig" ^^ dq ^^ " 1, " ^^ dq ^^ "calt" ^^ dq ^^ " 1;";
    "    -webkit-font-smoothing: antialiased;";
    "    -moz-osx-font-smoothing: grayscale;";
    "  }";
    EmptyString;
    "  /* ";
    "    CRITICAL: Enforce flexbox centering for all buttons ";
    "    This fixes the " ^^ dq ^^ "crooked button" ^^ dq ^^ " issue caused by line-height/vertical-align";
    "  */";
    "  button, ";
    "  [role=" ^^ dq ^^ "button" ^^ dq ^^ "],";
    "  input[type=" ^^ dq ^^ "submit" ^^ dq ^^ "],";
    "  input[type=" ^^ dq ^^ "reset" ^^ dq ^^ "],";
    "  input[type=" ^^ dq ^^ "button" ^^ dq ^^ "],";
    "  .btn {";
    "    display: inline-flex;";
    "    align-items: center;";
    "    justify-content: center;";
    "    white-space: nowrap;";
    "    vertical-align: middle;";
    "  }";
    "}"
  ].

(** *** The calls on the archive *)

(** [zip.file(name, content)] and, for the folder [src = zip.folder("src")],
    [src.file(name, content)], which prefixes the folder's root. *)
Definition call : Type := string * string.

Definition zip_file (name content : string) : call := (name, content).
Definition src_file (name content : string) : call := ("src/" ^^ name, content).

(** The calls of [generateProjectZip], in program order. *)
Definition root_calls (config : GeneratedProjectConfig) (fileType : FileType) : list call :=
  [ zip_file "package.json" (JSON.stringify (packageJson_json (packageJson config fileType)));
    zip_file ("vite.config." ^^ ext fileType) viteConfig;
    zip_file ("postcss.config." ^^ ext fileType) postcssConfig ]
  ++ (if isTS fileType
      then [ zip_file "tsconfig.json" (JSON.stringify tsConfig);
             zip_file "tsconfig.node.json" (JSON.stringify tsConfigNode) ]
      else [])
  ++ [ zip_file "index.html" (html (projectName config) (jsxExt fileType)) ].

Definition entry_calls (config : GeneratedProjectConfig) (fileType : FileType) : list call :=
  [ src_file ("main." ^^ jsxExt fileType) mainContent;
    src_file (appFileName fileType) (fileContent config) ].

Definition ghost_calls (config : GeneratedProjectConfig) (fileType : FileType) : list call :=
  List.map (fun importPath =>
              let f := ghostFile fileType importPath in src_file (fst f) (snd f))
           (localImports config).

Definition zip_calls (config : GeneratedProjectConfig) (fileType : FileType) : list call :=
  root_calls config fileType
  ++ entry_calls config fileType
  ++ ghost_calls config fileType
  ++ [ src_file "index.css" cssContent ].

(** The names the calls on the root and on the folder pass, in order. *)
Definition root_names (fileType : FileType) : list string :=
  [ "package.json"; "vite.config." ^^ ext fileType; "postcss.config." ^^ ext fileType ]
  ++ (if isTS fileType then [ "tsconfig.json"; "tsconfig.node.json" ] else [])
  ++ [ "index.html" ].

Definition src_names (config : GeneratedProjectConfig) (fileType : FileType) : list string :=
  [ "main." ^^ jsxExt fileType; appFileName fileType ]
  ++ List.map (fun importPath => fst (ghostFile fileType importPath)) (localImports config)
  ++ [ "index.css" ].

(** *** The archive *)

(** What JSZip keeps under the path of a file: the content and the time of
    the call that stored it.  The table below holds the files, what a
    look-up of a file by its path returns; the entries JSZip adds for the
    folders (for [src], and for the folders in the names of the files) are
    not files and are not represented. *)
Record ZipObject : Type := {
  data : string;
  date : Z
}.

(** [clock n] is what [new Date()] returns during the call numbered [n];
    a call on an existing path replaces the object stored there. *)
Fixpoint run (clock : nat -> Z) (n : nat) (calls : list call)
    (files : gmap string ZipObject) : gmap string ZipObject :=
  match calls with
  | [] => files
  | (path, content) :: rest =>
      run clock (S n) rest (<[path := {| data := content; date := clock n |}]> files)
  end.

Definition generateProjectZip (clock : nat -> Z)
    (config : GeneratedProjectConfig) (fileType : FileType) : gmap string ZipObject :=
  run clock 0 (zip_calls config fileType) ∅.

(** The file tree of an archive: the paths and the text under each. *)
Definition tree (files : gmap string ZipObject) : gmap string string :=
  data <$> files.

(** The same calls on a bare tree. *)
Definition write_all (calls : list call) (m : gmap string string) : gmap string string :=
  fold_left (fun m c => <[fst c := snd c]> m) calls m.

(** What the last call on [path] stored, [acc] when there is none. *)
Fixpoint last_write (path : string) (calls : list call) (acc : option string) : option string :=
  match calls with
  | [] => acc
  | c :: rest =>
      last_write path rest (if bool_decide (fst c = path) then Some (snd c) else acc)
  end.

(** The configuration with another [fileName]. *)
Definition with_fileName (fn : string) (config : GeneratedProjectConfig) : GeneratedProjectConfig :=
  {| fileName := fn;
     fileContent := fileContent config;
     projectName := projectName config;
     dependencies := dependencies config;
     localImports := localImports config |}.

End Generator.

(** ** The caller: App.tsx

    The part of the component that feeds the two services: the state the
    handlers read and write, and the handlers themselves.  A handler runs
    against the state of the render it was created in; what it does after
    an [await] is a separate event.  [handleGenerate] waits before it calls
    the generator, so a click only records the values it closed over, and
    the archive is stored when that job resolves, in any order with respect
    to the other events. *)

Module App.

(** [name.endsWith(suffix)]. *)
Fixpoint endsWith (suffix s : string) : bool :=
  bool_decide (s = suffix) ||
  match s with
  | EmptyString => false
  | String _ s' => endsWith suffix s'
  end.

(** [detectFileType], as the value it passes to [setFileType]. *)
Definition detectFileType (name : string) : Generator.FileType :=
  if endsWith ".tsx" name then Generator.TSX
  else if endsWith ".ts" name then Generator.TS
  else if endsWith ".jsx" name then Generator.JSX
  else if endsWith ".js" name then Generator.JS
  else Generator.UNKNOWN.

(** The arguments of one call of [generateProjectZip]. *)
Definition job : Type := Generator.GeneratedProjectConfig * Generator.FileType.

(** The state variables of the component that the services depend on;
    [downloadUrl] holds the archive the object URL stands for, and
    [pending] the calls of [handleGenerate] that have not resolved yet. *)
Record State : Type := {
  fileContent : string;
  fileName : string;
  fileType : Generator.FileType;
  dependencies : list string;
  localImports : list string;
  projectName : string;
  downloadUrl : option (gmap string Generator.ZipObject);
  pending : list job
}.

Definition initial : State :=
  {| fileContent := EmptyString;
     fileName := EmptyString;
     fileType := Generator.UNKNOWN;
     dependencies := [];
     localImports := [];
     projectName := "neon-app-01";
     downloadUrl := None;
     pending := [] |}.

(** [analyzeDeps] *)
Definition analyzeDeps (code : string) (st : State) : State :=
  let result := Analyzer.analyzeDependencies code in
  {| fileContent := fileContent st;
     fileName := fileName st;
     fileType := fileType st;
     dependencies := Analyzer.dependencies result;
     localImports := Analyzer.localImports result;
     projectName := projectName st;
     downloadUrl := None;
     pending := pending st |}.

(** [handleFileChange] once the text of the chosen file has been read;
    [None] when the input holds no file. *)
Definition handleFileChange (file : option (string * string)) (st : State) : State :=
  match file with
  | None => st
  | Some (name, text) =>
      analyzeDeps text
        {| fileContent := text;
           fileName := name;
           fileType := detectFileType name;
           dependencies := dependencies st;
           localImports := localImports st;
           projectName := projectName st;
           downloadUrl := downloadUrl st;
           pending := pending st |}
  end.

(** [handleTextChange] *)
Definition handleTextChange (text : string) (st : State) : State :=
  let unnamed := negb (Str.truthy (fileName st)) in
  analyzeDeps text
    {| fileContent := text;
       fileName := if unnamed then "App.tsx" else fileName st;
       fileType := if unnamed then Generator.TSX else fileType st;
       dependencies := dependencies st;
       localImports := localImports st;
       projectName := projectName st;
       downloadUrl := downloadUrl st;
       pending := pending st |}.

Definition setProjectName (value : string) (st : State) : State :=
  {| fileContent := fileContent st;
     fileName := fileName st;
     fileType := fileType st;
     dependencies := dependencies st;
     localImports := localImports st;
     projectName := value;
     downloadUrl := downloadUrl st;
     pending := pending st |}.

(** The arguments [handleGenerate] builds from the state it closed over. *)
Definition generate_job (st : State) : job :=
  ({| Generator.fileName := if Str.truthy (fileName st) then fileName st else "App.tsx";
      Generator.fileContent := fileContent st;
      Generator.projectName := projectName st;
      Generator.dependencies := dependencies st;
      Generator.localImports := localImports st |},
   match fileType st with
   | Generator.UNKNOWN => Generator.TSX
   | t => t
   end).

(** [handleGenerate] up to its first [await]: nothing happens without
    content. *)
Definition handleGenerate (st : State) : State :=
  if negb (Str.truthy (fileContent st)) then st
  else
    {| fileContent := fileContent st;
       fileName := fileName st;
       fileType := fileType st;
       dependencies := dependencies st;
       localImports := localImports st;
       projectName := projectName st;
       downloadUrl := downloadUrl st;
       pending := pending st ++ [generate_job st] |}.

(** The rest of [handleGenerate] for the pending call numbered [i]: the
    archive is generated and [setDownloadUrl] stores it. *)
Definition resolveGenerate (i : nat) (clock : nat -> Z) (st : State) : State :=
  match pending st !! i with
  | None => st
  | Some (config, fileType') =>
      {| fileContent := fileContent st;
         fileName := fileName st;
         fileType := fileType st;
         dependencies := dependencies st;
         localImports := localImports st;
         projectName := projectName st;
         downloadUrl := Some (Generator.generateProjectZip clock config fileType');
         pending := delete i (pending st) |}
  end.

Inductive event : Type :=
| FileChange (file : option (string * string))
| TextChange (text : string)
| ProjectNameChange (value : string)
| GenerateClick
| GenerateResolve (i : nat) (clock : nat -> Z).

Definition step (st : State) (e : event) : State :=
  match e with
  | FileChange file => handleFileChange file st
  | TextChange text => handleTextChange text st
  | ProjectNameChange value => setProjectName value st
  | GenerateClick => handleGenerate st
  | GenerateResolve i clock => resolveGenerate i clock st
  end.

(** The state after a sequence of events, from the first render. *)
Definition run (events : list event) : State := fold_left step events initial.

End App.

(** ** The wording of the specification *)

Module Spec.

(** Normalisation of an external reference: a scoped path keeps its first
    two segments, any other path its first one. *)
Definition normalize (path : string) : string :=
  Str.join "/" (take (if Str.startsWith "@" path then 2 else 1) (Str.split "/" path)).

(** The characters of a slug: lowercase letters, digits and hyphens. *)
Definition slug_char (c : ascii) : bool :=
  Char.is_lower c || Char.is_digit c || (Char.code c =? 45).

(** What the slug is free of in every case: blanks and capitals. *)
Definition lowered_char (c : ascii) : bool :=
  negb (Char.is_space c) && negb (Char.is_uppercase c).

(** A package of type declarations. *)
Definition is_type_declaration_package (pkg : string) : bool :=
  Str.startsWith "@types/" pkg.

Definition has_type_declarations (o : Obj.obj) : bool :=
  existsb is_type_declaration_package (List.map fst o).

(** The extensions the ghost file loop recognises. *)
Definition recognised_extensions : list string :=
  Generator.styleExtensions ++ Generator.imageExtensions ++ Generator.jsonExtensions.

(** No way of cutting [last] at a dot leaves a recognised extension. *)
Definition unrecognised (last : string) : Prop :=
  forall stem e, last = stem ^^ "." ^^ e -> e ∉ recognised_extensions.

(** The component extension of a variant. *)
Definition component_extension (fileType : Generator.FileType) : string :=
  match fileType with
  | Generator.TS | Generator.TSX => ".tsx"
  | _ => ".jsx"
  end.

(** The text contains one of the tokens an import starts with. *)
Definition has_import_token (code : string) : bool :=
  Str.includes "import" code || Str.includes "require" code.

(** The text contains one of the markers of the animation library. *)
Definition has_motion_marker (code : string) : bool :=
  Str.includes "motion." code || Str.includes "AnimatePresence" code.

End Spec.

(** ** Notions used in the statements *)

Module Notions.

(** Every own value of the object is truthy. *)
Definition all_truthy (o : Obj.obj) : Prop :=
  forall k v, Obj.get_own k o = Some v -> Str.truthy v = true.

(** The body of the loop of [mergeDependencies]. *)
Definition merge_step (o : Obj.obj) (dep : string) : Obj.obj :=
  if negb (Obj.get_truthy dep o) then Obj.set dep "latest" o else o.

(** The tail of both import patterns: a quote, the captured run of
    characters other than quotes, a quote. *)
Definition quoted_path : Regex.regex :=
  Regex.Seq (Regex.Cls Char.is_quote)
    (Regex.Seq (Regex.Cap (Regex.Plus Char.not_quote)) (Regex.Cls Char.is_quote)).

(** A pattern that ends with [quoted_path]. *)
Inductive ends_quoted : Regex.regex -> Prop :=
| ends_quoted_here : ends_quoted quoted_path
| ends_quoted_seq (r1 r2 : Regex.regex) : ends_quoted r2 -> ends_quoted (Regex.Seq r1 r2).

(** [cap] is a path written in [code]: not empty, free of quotes, standing
    between two quote characters somewhere after one of the two keywords;
    [rest] is the text after the closing quote. *)
Definition quoted_after_keyword (cap : option string) (code rest : string) : Prop :=
  exists path before keyword between q1 q2,
    cap = Some path /\
    path <> EmptyString /\
    Str.forallb Char.not_quote path = true /\
    (keyword = "import" \/ keyword = "require") /\
    Char.is_quote q1 = true /\ Char.is_quote q2 = true /\
    code = before ^^ keyword ^^ between ^^ String q1 (path ^^ String q2 rest).

(** A pattern made of a keyword and a part that ends with the quoted
    path. *)
Definition keyword_pattern (r : Regex.regex) : Prop :=
  forall s rest cap,
    Regex.match_here r s = Some (rest, cap) ->
    exists keyword between path q1 q2,
      cap = Some path /\ path <> EmptyString /\
      Str.forallb Char.not_quote path = true /\
      (keyword = "import" \/ keyword = "require") /\
      Char.is_quote q1 = true /\ Char.is_quote q2 = true /\
      s = keyword ^^ between ^^ String q1 (path ^^ String q2 rest).

(** The two shapes of a package name that can be installed: one segment,
    or a scope and a name. *)
Definition installable (x : string) : Prop :=
  Str.split "/" x = [x] \/
  (Str.startsWith "@" x = true /\
   exists scope pkg, x = scope ^^ "/" ^^ pkg /\ Str.split "/" x = [scope; pkg]).

(** The variant [handleGenerate] passes on. *)
Definition effective_type (fileType : Generator.FileType) : Generator.FileType :=
  match fileType with
  | Generator.UNKNOWN => Generator.TSX
  | t => t
  end.

(** The configuration comes from one analysed text. *)
Definition analysed (code : string) (config : Generator.GeneratedProjectConfig) : Prop :=
  Generator.fileContent config = code /\
  Generator.dependencies config =
    Analyzer.dependencies (Analyzer.analyzeDependencies code) /\
  Generator.localImports config =
    Analyzer.localImports (Analyzer.analyzeDependencies code).

(** What every call of the generator made by the component satisfies. *)
Definition well_formed_job (j : App.job) : Prop :=
  Generator.fileContent (fst j) <> EmptyString /\
  analysed (Generator.fileContent (fst j)) (fst j) /\
  Generator.fileName (fst j) <> EmptyString /\
  snd j = effective_type (App.detectFileType (Generator.fileName (fst j))).

(** The invariant of the component's state. *)
Definition consistent (st : App.State) : Prop :=
  App.fileType st = App.detectFileType (App.fileName st) /\
  App.dependencies st =
    Analyzer.dependencies (Analyzer.analyzeDependencies (App.fileContent st)) /\
  App.localImports st =
    Analyzer.localImports (Analyzer.analyzeDependencies (App.fileContent st)) /\
  Forall well_formed_job (App.pending st) /\
  (forall archive, App.downloadUrl st = Some archive ->
     exists clock j, well_formed_job j /\
                     archive = Generator.generateProjectZip clock (fst j) (snd j)).

(** The continuation that ends a match. *)
Definition final : string -> option string -> option Regex.result :=
  fun s' cap => Some (s', cap).

(** The part of [importRegex] before the quoted path. *)
Definition import_head : Regex.regex :=
  Regex.Seq (Regex.Alt (Regex.Lit "import") (Regex.Lit "require"))
 (Regex.Seq (Regex.Star Char.is_space)
      (Regex.Alt (Regex.Seq (Regex.Lit "(") (Regex.Star Char.is_space))
           (Regex.Seq (Regex.LazyStar Char.is_dot) (Regex.Seq (Regex.Lit "from") (Regex.Star Char.is_space))))).

(** The part of [sideEffectImportRegex] before the quoted path. *)
Definition side_effect_head : Regex.regex :=
  Regex.Seq (Regex.Lit "import") (Regex.Plus Char.is_space).

(** The elements of a list in the order of their first occurrence. *)
Definition keep_first (l : list string) : list string :=
  rev (remove_dups (rev l)).

(** The local paths among the captures, and the normal forms of the
    others, in the order of the captures. *)
Definition local_paths (caps : list (option string)) : list string :=
  omap (fun cap =>
          match cap with
          | Some p => if Analyzer.starts_local p then Some p else None
          | None => None
          end) caps.

Definition package_names (caps : list (option string)) : list string :=
  omap (fun cap =>
          match cap with
          | Some p => if Analyzer.external p then Some (Spec.normalize p) else None
          | None => None
          end) caps.

(** The three ways of writing the import of a path. *)
Definition default_import (path : string) : string := "import x from '" ^^ path ^^ "'".
Definition side_effect_import (path : string) : string := "import '" ^^ path ^^ "'".
Definition require_call (path : string) : string := "require('" ^^ path ^^ "')".

End Notions.

(** ** Sample inputs *)

Module Samples.

(** An import of a deep path, written with double quotes. *)
Definition import_lodash : string :=
  "import x from " ^^ Str.dq ^^ "lodash/debounce" ^^ Str.dq.

Definition import_scoped : string :=
  "import x from '@scope/pkg/deep'".

Definition import_local : string :=
  "import x from './a/b'".

Definition import_denied : string :=
  "import React from 'react'; import ReactDOM from 'react-dom/client'; " ^^
  "const fs = require('fs'); import path from 'path'; import _ from 'lodash'".

Definition animated : string := "AnimatePresence".

Definition no_imports : string := "const x = 1;".

(** Several statements on two lines: a default import, a side-effect
    import followed by a scoped import on the same line, a call of
    [require] and a dynamic import. *)
Definition mixed : string :=
  "import React from 'react'" ^^ Str.nl ^^
  "import './a.css'; import y from '@scope/pkg/deep'; " ^^
  "const z = require('./zz'); import('fs')".

(** A project whose name has capitals, blanks and punctuation. *)
Definition cool_app : Generator.GeneratedProjectConfig :=
  {| Generator.fileName := "App.tsx";
     Generator.fileContent := "export default function App() { return null }";
     Generator.projectName := "My Cool App!!";
     Generator.dependencies := ["lodash"];
     Generator.localImports := ["./components/Button"; "./Comp.jsx"; "./styles/main.css"] |}.

(** Two local imports that name the same file once the first one has
    received its extension. *)
Definition colliding : Generator.GeneratedProjectConfig :=
  {| Generator.fileName := "App.tsx";
     Generator.fileContent := "import A from './a'; import B from './a.tsx'";
     Generator.projectName := "demo";
     Generator.dependencies := [];
     Generator.localImports := ["./a"; "./a.tsx"] |}.

(** A local import that keeps an extension of its own, followed by one
    that receives that very extension from the variant JSX. *)
Definition colliding_extension : Generator.GeneratedProjectConfig :=
  {| Generator.fileName := "App.jsx";
     Generator.fileContent := "import A from './Comp.jsx'; import B from './Comp'";
     Generator.projectName := "demo";
     Generator.dependencies := [];
     Generator.localImports := ["./Comp.jsx"; "./Comp"] |}.

(** The local imports of a folder: two without an extension, one with an
    extension the loop does not recognise, and a stylesheet. *)
Definition widgets : Generator.GeneratedProjectConfig :=
  {| Generator.fileName := "App.jsx";
     Generator.fileContent :=
       "import Card from './widgets/Card'; import Comp from './widgets/Comp.jsx'; "
       ^^ "import './widgets/theme.css'; import Other from './widgets/Other'";
     Generator.projectName := "widgets";
     Generator.dependencies := [];
     Generator.localImports :=
       ["./widgets/Card"; "./widgets/Comp.jsx"; "./widgets/theme.css";
        "./widgets/Other"] |}.

(** The user pastes a text, asks for the archive, edits the text while
    the archive is being built, and the archive arrives. *)
Definition edit_during_generation : list App.event :=
  [ App.TextChange "import a from './a'";
    App.GenerateClick;
    App.TextChange "import b from './b'";
    App.GenerateResolve 0 (fun _ => 0%Z) ].

(** A file is chosen, the project is renamed, the archive is built. *)
Definition upload_and_generate : list App.event :=
  [ App.FileChange (Some ("widget.jsx", "import _ from 'lodash'; import './w.css'"));
    App.ProjectNameChange "My Widget";
    App.GenerateClick;
    App.GenerateResolve 0 (fun _ => 0%Z) ].

(** The call of the generator those events lead to. *)
Definition widget_config : Generator.GeneratedProjectConfig :=
  {| Generator.fileName := "widget.jsx";
     Generator.fileContent := "import _ from 'lodash'; import './w.css'";
     Generator.projectName := "My Widget";
     Generator.dependencies := ["lodash"];
     Generator.localImports := ["./w.css"] |}.

Definition epoch (n : nat) : Z := 0.
Definition ticking (n : nat) : Z := 1700000000000 + Z.of_nat n.

End Samples.

(** * Properties *)

#[local] Arguments Ascii.eqb : simpl never.

(** Closed decidable goals are settled by evaluation. *)
Ltac by_evaluation_in H :=
  repeat (apply elem_of_cons in H as [->|H]; [vm_compute; discriminate|]);
  by apply elem_of_nil in H.

Ltac by_evaluation :=
  match goal with
  | |- ?P => apply (bool_decide_eq_true_1 P); vm_compute; reflexivity
  end.

(** ** Strings *)

Module StrFacts.

Lemma app_nil_r (s : string) : s ^^ EmptyString = s.
Proof. induction s as [|c s IH]; simpl; congruence. Qed.

Lemma app_assoc (a b c : string) : (a ^^ b) ^^ c = a ^^ b ^^ c.
Proof. induction a as [|x a IH]; simpl; congruence. Qed.

Lemma length_app (a b : string) : Str.length (a ^^ b) = Str.length a + Str.length b.
Proof. induction a as [|x a IH]; simpl; congruence. Qed.

Lemma eqb_true (a b : ascii) : Ascii.eqb a b = true <-> a = b.
Proof. apply Ascii.eqb_eq. Qed.

Lemma strip_prefix_app (p s t : string) :
  Str.strip_prefix p s = Some t <-> s = p ^^ t.
Proof.
  revert s; induction p as [|a p IH]; intros s; simpl.
  - split; congruence.
  - destruct s as [|b s]; [split; discriminate|].
    destruct (Ascii.eqb a b) eqn:E.
    + apply eqb_true in E as ->. rewrite IH. split; congruence.
    + split; [discriminate|]. intros [= -> _].
      rewrite Ascii.eqb_refl in E. discriminate.
Qed.

Lemma strip_prefix_length (p s t : string) :
  Str.strip_prefix p s = Some t -> Str.length s = Str.length p + Str.length t.
Proof. intros ->%strip_prefix_app. apply length_app. Qed.

(** Two texts that end in tails of the same length agree part by part. *)
Lemma app_inj_tail (a b x y : string) :
  Str.length x = Str.length y -> a ^^ x = b ^^ y -> a = b /\ x = y.
Proof.
  revert b; induction a as [|c a IH]; intros [|d b] Hlen H; simpl in *.
  - done.
  - apply (f_equal Str.length) in H. simpl in H. rewrite length_app in H. lia.
  - apply (f_equal Str.length) in H. simpl in H. rewrite length_app in H. lia.
  - injection H as -> H. destruct (IH b Hlen H) as [-> ->]. done.
Qed.

Lemma includes_false_head (p : string) (c : ascii) (s : string) :
  Str.includes p (String c s) = false ->
  Str.startsWith p (String c s) = false /\ Str.includes p s = false.
Proof. simpl. intros H%orb_false_iff. done. Qed.

Lemma includes_false_startsWith (p s : string) :
  Str.includes p s = false -> Str.startsWith p s = false.
Proof. destruct s; simpl; intros H%orb_false_iff; tauto. Qed.

Lemma startsWith_false (p s : string) :
  Str.startsWith p s = false -> Str.strip_prefix p s = None.
Proof. unfold Str.startsWith. destruct (Str.strip_prefix p s); done. Qed.

End StrFacts.

(** ** The matcher never moves backwards, and the two import patterns
       always move forwards *)

Module RegexFacts.
Import Regex.

Section Suffix.
Context {R : Type} (p : ascii -> bool) (k : string -> option R).

Lemma star_greedy_suffix (s : string) (x : R) :
  star_greedy p k s = Some x ->
  exists s', k s' = Some x /\ Str.length s' <= Str.length s.
Proof.
  induction s as [|c s IH]; simpl.
  - intros H. exists EmptyString. done.
  - destruct (p c).
    + destruct (star_greedy p k s) as [y|] eqn:E.
      * intros [= ->]. destruct (IH eq_refl) as (s' & Hk & Hl).
        exists s'. split; [done|lia].
      * intros H. exists (String c s). done.
    + intros H. exists (String c s). done.
Qed.

Lemma star_lazy_suffix (s : string) (x : R) :
  star_lazy p k s = Some x ->
  exists s', k s' = Some x /\ Str.length s' <= Str.length s.
Proof.
  induction s as [|c s IH]; simpl.
  - destruct (k EmptyString) eqn:E; [|done].
    intros [= ->]. exists EmptyString. done.
  - destruct (k (String c s)) eqn:E.
    + intros [= ->]. exists (String c s). done.
    + destruct (p c); [|done]. intros H.
      destruct (IH H) as (s' & Hk & Hl). exists s'. split; [done|lia].
Qed.

End Suffix.

Lemma rmatch_suffix (r : regex) :
  forall (R : Type) (s : string) (cap : option string)
         (k : string -> option string -> option R) (x : R),
    rmatch r s cap k = Some x ->
    exists s' cap', k s' cap' = Some x /\ Str.length s' <= Str.length s.
Proof.
  induction r as [l|p|r1 IH1 r2 IH2|r1 IH1 r2 IH2|p|p|r IH|];
    intros R s cap k x; simpl.
  - destruct (Str.strip_prefix l s) as [s'|] eqn:E; [|done].
    intros H. exists s', cap. split; [done|].
    apply StrFacts.strip_prefix_length in E. lia.
  - destruct s as [|c s]; [done|]. destruct (p c); [|done].
    intros H. exists s, cap. split; [done|simpl; lia].
  - intros H. apply IH1 in H as (s1 & cap1 & H & Hl1).
    apply IH2 in H as (s2 & cap2 & H & Hl2).
    exists s2, cap2. split; [done|lia].
  - destruct (rmatch r1 s cap k) as [y|] eqn:E.
    + intros [= ->]. by apply IH1 in E.
    + apply IH2.
  - intros H. apply star_greedy_suffix in H as (s' & H & Hl). by exists s', cap.
  - intros H. apply star_lazy_suffix in H as (s' & H & Hl). by exists s', cap.
  - intros H. apply IH in H as (s' & cap' & H & Hl).
    by exists s', (Some (consumed s s')).
  - destruct s; [|done]. intros H. by exists EmptyString, cap.
Qed.

Lemma lit_progresses (c : ascii) (l : string) (r : regex) :
  progresses (Seq (Lit (String c l)) r).
Proof.
  intros s rest cap. unfold match_here. cbn [rmatch].
  destruct (Str.strip_prefix (String c l) s) as [s1|] eqn:E; [|done].
  intros H. apply rmatch_suffix in H as (s' & cap' & [= -> ->] & Hl).
  apply StrFacts.strip_prefix_length in E. simpl in E. lia.
Qed.

Lemma alt_lit_progresses (c1 c2 : ascii) (l1 l2 : string) (r : regex) :
  progresses (Seq (Alt (Lit (String c1 l1)) (Lit (String c2 l2))) r).
Proof.
  intros s rest cap H.
  assert (match_here (Seq (Lit (String c1 l1)) r) s = Some (rest, cap) \/
          match_here (Seq (Lit (String c2 l2)) r) s = Some (rest, cap)) as [H'|H'].
  { revert H. unfold match_here. cbn [rmatch].
    destruct (Str.strip_prefix (String c1 l1) s) as [s1|] eqn:E1.
    - destruct (rmatch r s1 None _) eqn:E; [intros [= ->]; by left|].
      intros H; by right.
    - intros H; by right. }
  - by apply lit_progresses in H'.
  - by apply lit_progresses in H'.
Qed.

Lemma exec_progress (r : regex) (s : string) rest cap :
  progresses r -> exec r s = Some (rest, cap) -> Str.length rest < Str.length s.
Proof.
  intros Hr. induction s as [|c s IH]; simpl.
  - destruct (match_here r EmptyString) as [[]|] eqn:E; [|done].
    intros [= -> ->]. by apply Hr in E.
  - destruct (match_here r (String c s)) as [[]|] eqn:E.
    + intros [= -> ->]. by apply Hr in E.
    + intros H%IH. lia.
Qed.

(** The loop of a progressing pattern returns within [length s + 1]
    iterations, and more fuel does not change what it returns. *)
Lemma exec_loop_returns (r : regex) :
  progresses r ->
  forall fuel s, Str.length s < fuel -> is_Some (exec_loop fuel r s).
Proof.
  intros Hr fuel. induction fuel as [|fuel IH]; intros s Hs; [lia|].
  simpl. destruct (exec r s) as [[rest cap]|] eqn:E; [|done].
  apply exec_progress in E; [|done].
  destruct (IH rest) as [l ->]; [lia|]. done.
Qed.

Lemma exec_loop_more_fuel (r : regex) (fuel : nat) :
  forall s l fuel', exec_loop fuel r s = Some l -> fuel <= fuel' ->
                    exec_loop fuel' r s = Some l.
Proof.
  induction fuel as [|fuel IH]; intros s l fuel'; [done|].
  destruct fuel' as [|fuel']; [lia|]. simpl.
  destruct (exec r s) as [[rest cap]|]; [|done].
  destruct (exec_loop fuel r rest) as [caps|] eqn:E; [|done].
  intros [= <-] Hle. rewrite (IH rest caps fuel'); [done|done|lia].
Qed.

Lemma match_all_spec (r : regex) (s : string) :
  progresses r -> exec_loop (S (Str.length s)) r s = Some (match_all r s).
Proof.
  intros Hr. unfold match_all.
  destruct (exec_loop_returns r Hr (S (Str.length s)) s) as [l ->]; [lia|]. done.
Qed.

(** A text without the literal a pattern begins with has no match. *)
Lemma exec_none_lit (c : ascii) (l : string) (r : regex) (s : string) :
  Str.includes (String c l) s = false -> exec (Seq (Lit (String c l)) r) s = None.
Proof.
  induction s as [|a s IH]; intros H.
  - done.
  - apply StrFacts.includes_false_head in H as [H1 H2].
    apply StrFacts.startsWith_false in H1.
    cbn [exec]. unfold match_here at 1. cbn [rmatch]. rewrite H1. by apply IH.
Qed.

Lemma exec_none_alt_lit (c1 c2 : ascii) (l1 l2 : string) (r : regex) (s : string) :
  Str.includes (String c1 l1) s = false ->
  Str.includes (String c2 l2) s = false ->
  exec (Seq (Alt (Lit (String c1 l1)) (Lit (String c2 l2))) r) s = None.
Proof.
  induction s as [|a s IH]; intros H H'.
  - done.
  - apply StrFacts.includes_false_head in H as [H1 H2].
    apply StrFacts.includes_false_head in H' as [H1' H2'].
    apply StrFacts.startsWith_false in H1, H1'.
    cbn [exec]. unfold match_here at 1. cbn [rmatch]. rewrite H1, H1'. by apply IH.
Qed.

(** A match found by [exec] starts at some suffix of the text. *)
Lemma exec_suffix (r : regex) (s : string) (x : result) :
  exec r s = Some x -> exists pre t, s = pre ^^ t /\ match_here r t = Some x.
Proof.
  induction s as [|c s IH]; simpl.
  - destruct (match_here r EmptyString) eqn:E; [|done].
    intros [= ->]. by exists EmptyString, EmptyString.
  - destruct (match_here r (String c s)) eqn:E.
    + intros [= ->]. by exists EmptyString, (String c s).
    + intros (pre & t & -> & H)%IH. by exists (String c pre), t.
Qed.

Lemma exec_app (r : regex) (pre t : string) :
  is_Some (match_here r t) -> is_Some (exec r (pre ^^ t)).
Proof.
  intros H. induction pre as [|c pre IH]; simpl.
  - destruct t; simpl; destruct (match_here r _); done.
  - destruct (match_here r (String c (pre ^^ t))); done.
Qed.

End RegexFacts.

(** ** The analyzer *)

Module AnalyzerFacts.
Import Regex Analyzer Spec.

Lemma importRegex_progresses : progresses importRegex.
Proof. apply RegexFacts.alt_lit_progresses. Qed.

Lemma sideEffectImportRegex_progresses : progresses sideEffectImportRegex.
Proof. apply RegexFacts.lit_progresses. Qed.

(** *** Sets *)

Lemma elem_of_set_add (x y : string) (s : list string) :
  y ∈ set_add x s <-> y = x \/ y ∈ s.
Proof.
  unfold set_add. destruct (decide (x ∈ s)).
  - split; [by right|]. intros [->|]; done.
  - rewrite elem_of_app, list_elem_of_singleton. tauto.
Qed.

Lemma NoDup_set_add (x : string) (s : list string) :
  NoDup s -> NoDup (set_add x s).
Proof.
  intros H. unfold set_add. destruct (decide (x ∈ s)); [done|].
  apply NoDup_app. split; [done|]. split; [|apply NoDup_singleton].
  intros y Hy ->%list_elem_of_singleton. done.
Qed.

Lemma elem_of_set_delete (x y : string) (s : list string) :
  y ∈ set_delete x s <-> y ∈ s /\ y <> x.
Proof.
  unfold set_delete. rewrite !list_elem_of_In, filter_In.
  rewrite negb_true_iff, bool_decide_eq_false. done.
Qed.

Lemma elem_of_delete_all (l : list string) (y : string) (s : list string) :
  y ∈ fold_left (fun d x => set_delete x d) l s <-> y ∈ s /\ y ∉ l.
Proof.
  revert s; induction l as [|x l IH]; intros s; simpl.
  - rewrite elem_of_nil. tauto.
  - rewrite IH, elem_of_set_delete, not_elem_of_cons. tauto.
Qed.

(** *** Splitting at the slashes *)

Lemma split_nonempty (sep : ascii) (s : string) : Str.split sep s <> [].
Proof.
  destruct s as [|c s]; simpl; [done|].
  destruct (Ascii.eqb c sep); [done|]. destruct (Str.split sep s); done.
Qed.

Lemma join_split (sep : ascii) (s : string) :
  Str.join (Str.of_char sep) (Str.split sep s) = s.
Proof.
  induction s as [|c s IH]; simpl; [done|].
  pose proof (split_nonempty sep s) as Hne.
  destruct (Ascii.eqb c sep) eqn:E.
  - apply Ascii.eqb_eq in E as ->.
    destruct (Str.split sep s) as [|q qs]; [done|].
    change (Str.join (Str.of_char sep) (EmptyString :: q :: qs))
      with (String sep (Str.join (Str.of_char sep) (q :: qs))).
    by rewrite IH.
  - destruct (Str.split sep s) as [|q qs]; [done|].
    rewrite <- IH. destruct qs; done.
Qed.

Lemma split_singleton (sep : ascii) (s x : string) :
  Str.split sep s = [x] -> x = s.
Proof. intros H. rewrite <- (join_split sep s), H. done. Qed.

Lemma split_head (sep c : ascii) (s : string) :
  Ascii.eqb c sep = false ->
  exists q qs, Str.split sep (String c s) = String c q :: qs.
Proof.
  intros E. simpl. rewrite E.
  pose proof (split_nonempty sep s).
  destruct (Str.split sep s) as [|q qs]; [done|]. by exists q, qs.
Qed.

(** *** [cleanPackageName] against the wording *)

Lemma starts_local_head (c : ascii) (s t : string) :
  starts_local (String c s) = starts_local (String c t).
Proof.
  unfold starts_local, Str.startsWith. simpl.
  by destruct (Ascii.eqb "." c), (Ascii.eqb "/" c).
Qed.

Lemma cleanPackageName_external (path : string) :
  external path = true ->
  cleanPackageName path = Some (normalize path) /\ external (normalize path) = true.
Proof.
  unfold external. intros [Ht Hl%negb_true_iff]%andb_true_iff.
  destruct path as [|c s]; [done|].
  unfold cleanPackageName, normalize. rewrite Ht, Hl. cbn [negb].
  assert (Ascii.eqb c "/" = false) as Hc.
  { revert Hl. unfold starts_local, Str.startsWith. cbn.
    rewrite (Ascii.eqb_sym c). destruct (Ascii.eqb "/" c); [|done].
    by rewrite orb_true_r. }
  destruct (split_head "/" c s Hc) as (q & qs & Hs).
  rewrite Hs. destruct (Str.startsWith "@" (String c s)).
  - destruct qs as [|q1 qs].
    + apply split_singleton in Hs as <-. cbn.
      split; [done|]. by rewrite (starts_local_head c _ s), Hl.
    + cbn. rewrite take_0. cbn.
      split; [done|]. by rewrite (starts_local_head c _ s), Hl.
  - cbn. rewrite take_0. cbn.
    split; [done|]. by rewrite (starts_local_head c _ s), Hl.
Qed.

Lemma starts_local_truthy (path : string) :
  starts_local path = true -> Str.truthy path = true.
Proof. by destruct path. Qed.

(** *** [processPath] *)

Lemma processPath_external (path : string) (st : sets) :
  external path = true ->
  processPath (Some path) st =
    {| deps := set_add (normalize path) (deps st); locals := locals st |}.
Proof.
  intros H. destruct (cleanPackageName_external path H) as [Hc Hn].
  apply andb_true_iff in H as [Ht Hl%negb_true_iff].
  apply andb_true_iff in Hn as [Hnt _].
  unfold processPath. by rewrite Ht, Hl, Hc, Hnt.
Qed.

Lemma processPath_local (path : string) (st : sets) :
  starts_local path = true ->
  processPath (Some path) st =
    {| deps := deps st; locals := set_add path (locals st) |}.
Proof.
  intros H. unfold processPath. by rewrite (starts_local_truthy _ H), H.
Qed.

Lemma processPath_falsy (st : sets) :
  processPath None st = st /\ processPath (Some EmptyString) st = st.
Proof. done. Qed.

Lemma processPath_cases (path : option string) (st : sets) :
  (exists p, path = Some p /\ external p = true /\
             processPath path st =
               {| deps := set_add (normalize p) (deps st); locals := locals st |}) \/
  (exists p, path = Some p /\ starts_local p = true /\
             processPath path st =
               {| deps := deps st; locals := set_add p (locals st) |}) \/
  ((path = None \/ path = Some EmptyString) /\ processPath path st = st).
Proof.
  destruct path as [p|]; [|right; right; by split; [left|]].
  destruct p as [|c s]; [right; right; by split; [right|]|].
  destruct (starts_local (String c s)) eqn:E.
  - right; left. exists (String c s). by rewrite processPath_local.
  - left. exists (String c s).
    assert (external (String c s) = true) as H by (unfold external; by rewrite E).
    by rewrite processPath_external.
Qed.

Lemma process_all_deps (paths : list (option string)) (st : sets) (x : string) :
  x ∈ deps (process_all paths st) <->
  x ∈ deps st \/ exists p, Some p ∈ paths /\ external p = true /\ x = normalize p.
Proof.
  revert st; induction paths as [|path paths IH]; intros st; cbn [process_all fold_left].
  - split; [by left|]. intros [H|(p & H%elem_of_nil & _)]; done.
  - unfold process_all in IH. rewrite IH.
    destruct (processPath_cases path st)
      as [(p & -> & He & ->)|[(p & -> & Hl & ->)|(Hp & ->)]]; cbn [deps].
    + rewrite elem_of_set_add. split.
      * intros [[->|H]|(q & Hq & H)]; [right|by left|right].
        -- exists p. split; [apply list_elem_of_here|done].
        -- exists q. split; [by apply list_elem_of_further|done].
      * intros [H|(q & [[= ->]|Hq]%elem_of_cons & He' & ->)];
          [left; by right|left; by left|right; by exists q].
    + split.
      * intros [H|(q & Hq & H)]; [by left|right].
        exists q. split; [by apply list_elem_of_further|done].
      * intros [H|(q & [[= ->]|Hq]%elem_of_cons & He' & ->)];
          [by left| |right; by exists q].
        unfold external in He'. rewrite Hl in He'. by rewrite andb_false_r in He'.
    + split.
      * intros [H|(q & Hq & H)]; [by left|right].
        exists q. split; [by apply list_elem_of_further|done].
      * intros [H|(q & [Heq|Hq]%elem_of_cons & He' & ->)];
          [by left| |right; by exists q].
        destruct Hp as [->| ->]; [done|]. by injection Heq as ->.
Qed.

Lemma process_all_locals (paths : list (option string)) (st : sets) (x : string) :
  x ∈ locals (process_all paths st) <->
  x ∈ locals st \/ (Some x ∈ paths /\ starts_local x = true).
Proof.
  revert st; induction paths as [|path paths IH]; intros st; cbn [process_all fold_left].
  - split; [by left|]. intros [H|[H%elem_of_nil _]]; done.
  - unfold process_all in IH. rewrite IH.
    destruct (processPath_cases path st)
      as [(p & -> & He & ->)|[(p & -> & Hl & ->)|(Hp & ->)]]; cbn [locals].
    + split.
      * intros [H|[Hq H]]; [by left|right].
        split; [by apply list_elem_of_further|done].
      * intros [H|[[[= ->]|Hq]%elem_of_cons Hl]]; [by left| |by right].
        unfold external in He. rewrite Hl in He. by rewrite andb_false_r in He.
    + rewrite elem_of_set_add. split.
      * intros [[->|H]|[Hq H]]; [right|by left|right].
        -- split; [apply list_elem_of_here|done].
        -- split; [by apply list_elem_of_further|done].
      * intros [H|[[[= ->]|Hq]%elem_of_cons Hl']];
          [left; by right|left; by left|by right].
    + split.
      * intros [H|[Hq H]]; [by left|right].
        split; [by apply list_elem_of_further|done].
      * intros [H|[[Heq|Hq]%elem_of_cons Hl]]; [by left| |by right].
        destruct Hp as [->| ->]; [done|]. by injection Heq as ->.
Qed.

(** *** The result of [analyzeDependencies] *)

Lemma analyze_unfold (code : string) :
  analyzeDependencies code =
    let st := process_all (extracted code) {| deps := []; locals := [] |} in
    let st := clean_up (smart_detection code st) in
    {| dependencies := deps st; localImports := locals st |}.
Proof.
  unfold analyzeDependencies, finish, extracted, process_all.
  by rewrite fold_left_app.
Qed.

Lemma elem_of_dependencies (code : string) (x : string) :
  x ∈ dependencies (analyzeDependencies code) <->
  (x ∉ denylist) /\
  ((has_motion_marker code = true /\ x = "framer-motion") \/
   exists p, Some p ∈ extracted code /\ external p = true /\ x = normalize p).
Proof.
  rewrite analyze_unfold. cbn [dependencies clean_up deps].
  rewrite elem_of_delete_all. unfold smart_detection, has_motion_marker.
  destruct (Str.includes "motion." code || Str.includes "AnimatePresence" code);
    cbn [deps]; [rewrite elem_of_set_add|]; rewrite process_all_deps; cbn [deps];
    rewrite elem_of_nil; intuition congruence.
Qed.

Lemma elem_of_localImports (code : string) (x : string) :
  x ∈ localImports (analyzeDependencies code) <->
  Some x ∈ extracted code /\ starts_local x = true.
Proof.
  rewrite analyze_unfold. cbn [localImports clean_up locals].
  unfold smart_detection.
  destruct (Str.includes "motion." code || Str.includes "AnimatePresence" code);
    cbn [locals]; rewrite process_all_locals; cbn [locals];
    rewrite elem_of_nil; tauto.
Qed.

End AnalyzerFacts.

(** ** The generator *)

Module GeneratorFacts.
Import Regex Generator Spec.

(** *** The slug *)

Lemma to_lower_not_uppercase (c : ascii) : Char.is_uppercase (Char.to_lower c) = false.
Proof. destruct c as [[] [] [] [] [] [] [] []]; reflexivity. Qed.

Lemma to_lower_space (c : ascii) : Char.is_space (Char.to_lower c) = Char.is_space c.
Proof. destruct c as [[] [] [] [] [] [] [] []]; reflexivity. Qed.

Lemma toLowerCase_no_uppercase (s : string) :
  Str.forallb (fun c => negb (Char.is_uppercase c)) (toLowerCase s) = true.
Proof.
  unfold toLowerCase. induction s as [|c s IH]; simpl; [done|].
  by rewrite to_lower_not_uppercase, IH.
Qed.

Lemma replace_spaces_lowered (in_run : bool) (s : string) :
  Str.forallb (fun c => negb (Char.is_uppercase c)) s = true ->
  Str.forallb lowered_char (replace_spaces in_run s) = true.
Proof.
  revert in_run; induction s as [|c s IH]; intros in_run; simpl; [done|].
  intros [Hc Hs]%andb_true_iff.
  destruct (Char.is_space c) eqn:E.
  - destruct in_run; simpl; auto.
  - simpl. unfold lowered_char at 1. rewrite E, Hc. simpl. auto.
Qed.

(** *** The calls and the tree *)

Lemma tree_run (clock : nat -> Z) (calls : list call) :
  forall n files, tree (run clock n calls files) = write_all calls (tree files).
Proof.
  unfold tree, write_all.
  induction calls as [|[path content] calls IH]; intros n files; simpl; [done|].
  by rewrite IH, fmap_insert.
Qed.

Lemma tree_generate (clock : nat -> Z) config fileType :
  tree (generateProjectZip clock config fileType) =
    write_all (zip_calls config fileType) ∅.
Proof. unfold generateProjectZip. rewrite tree_run. unfold tree. by rewrite fmap_empty. Qed.

Lemma lookup_write_all (path : string) (calls : list call) :
  forall m, write_all calls m !! path = last_write path calls (m !! path).
Proof.
  unfold write_all.
  induction calls as [|c calls IH]; intros m; simpl; [done|].
  rewrite IH. f_equal. case_bool_decide as E.
  - rewrite E. apply lookup_insert_eq.
  - by apply lookup_insert_ne.
Qed.

Lemma lookup_tree (clock : nat -> Z) config fileType (path : string) :
  tree (generateProjectZip clock config fileType) !! path =
    last_write path (zip_calls config fileType) None.
Proof. by rewrite tree_generate, lookup_write_all, lookup_empty. Qed.

Lemma last_write_app (path : string) (l1 l2 : list call) (acc : option string) :
  last_write path (l1 ++ l2) acc = last_write path l2 (last_write path l1 acc).
Proof. revert acc; induction l1 as [|c l1 IH]; intros acc; simpl; [done|]. apply IH. Qed.

Lemma last_write_other (path : string) (calls : list call) (acc : option string) :
  (forall c, c ∈ calls -> fst c <> path) -> last_write path calls acc = acc.
Proof.
  revert acc; induction calls as [|c calls IH]; intros acc H; simpl; [done|].
  rewrite bool_decide_eq_false_2 by (apply H; apply list_elem_of_here).
  apply IH. intros c' Hc'. apply H. by apply list_elem_of_further.
Qed.

Lemma last_write_same (path content : string) (calls : list call) :
  (forall c, c ∈ calls -> fst c = path -> snd c = content) ->
  last_write path calls (Some content) = Some content.
Proof.
  induction calls as [|c calls IH]; intros H; simpl; [done|].
  case_bool_decide as E.
  - rewrite (H c (list_elem_of_here _ _) E).
    apply IH. intros c' Hc'. apply H. by apply list_elem_of_further.
  - apply IH. intros c' Hc'. apply H. by apply list_elem_of_further.
Qed.

Lemma last_write_is_Some (path : string) (calls : list call) :
  is_Some (last_write path calls None) <-> path ∈ List.map fst calls.
Proof.
  assert (forall acc, is_Some (last_write path calls acc) <->
                      is_Some acc \/ path ∈ List.map fst calls) as H.
  { induction calls as [|c calls IH]; intros acc; simpl.
    - rewrite elem_of_nil. tauto.
    - rewrite IH, elem_of_cons. case_bool_decide as E.
      + rewrite E. split; [intros _; right; by left|intros _; left; by eexists].
      + split; [tauto|]. intros [?|[?|?]]; [tauto|congruence|tauto]. }
  rewrite H. split; [intros [[? [=]]|?]; done|tauto].
Qed.

(** The calls on the folder stay below [src/]. *)
Lemma src_calls_other (path : string) (names : list call) :
  Str.startsWith "src/" path = false ->
  forall c, c ∈ List.map (fun f => src_file (fst f) (snd f)) names -> fst c <> path.
Proof.
  intros Hp c Hc <-. apply list_elem_of_In, in_map_iff in Hc as (f & <- & _).
  done.
Qed.

Lemma last_write_first (c : call) (rest : list call) (acc : option string) :
  fst c ∉ List.map fst rest -> last_write (fst c) (c :: rest) acc = Some (snd c).
Proof.
  intros H. simpl. rewrite bool_decide_eq_true_2 by done.
  apply last_write_other. intros c' Hc' E. apply H. rewrite <- E.
  apply list_elem_of_In, in_map, list_elem_of_In, Hc'.
Qed.

Lemma last_write_later (path content : string) (l1 l2 : list call) (acc : option string) :
  (forall c, c ∈ l2 -> fst c = path -> snd c = content) ->
  last_write path (l1 ++ (path, content) :: l2) acc = Some content.
Proof.
  intros H. rewrite last_write_app. simpl.
  rewrite bool_decide_eq_true_2 by done. by apply last_write_same.
Qed.

(** *** The paths of the calls *)

Lemma zip_paths config fileType :
  List.map fst (zip_calls config fileType) =
    root_names fileType ++ List.map (Str.app "src/") (src_names config fileType).
Proof.
  unfold zip_calls, root_calls, entry_calls, ghost_calls, root_names, src_names.
  rewrite !List.map_app, !List.map_map. by destruct (isTS fileType).
Qed.

Lemma elem_of_zip_paths_root config fileType (path : string) :
  Str.startsWith "src/" path = false ->
  path ∈ List.map fst (zip_calls config fileType) <-> path ∈ root_names fileType.
Proof.
  intros Hp. rewrite zip_paths, elem_of_app. split; [|by left].
  intros [H|H]; [done|].
  apply list_elem_of_In, in_map_iff in H as (n & <- & _). done.
Qed.

Lemma zip_calls_head config fileType :
  exists rest,
    zip_calls config fileType =
      zip_file "package.json"
        (JSON.stringify (packageJson_json (packageJson config fileType))) :: rest /\
    List.map fst rest =
      tail (root_names fileType) ++ List.map (Str.app "src/") (src_names config fileType).
Proof.
  unfold zip_calls, root_calls. cbn [app]. eexists. split; [reflexivity|].
  unfold entry_calls, ghost_calls, root_names, src_names.
  destruct (isTS fileType); cbn [app List.map tail fst zip_file];
    rewrite ?List.map_app, ?List.map_map; reflexivity.
Qed.

Lemma manifest_written (clock : nat -> Z) config fileType :
  tree (generateProjectZip clock config fileType) !! "package.json" =
    Some (JSON.stringify (packageJson_json (packageJson config fileType))).
Proof.
  rewrite lookup_tree.
  destruct (zip_calls_head config fileType) as (rest & -> & Hrest).
  apply (last_write_first (zip_file "package.json" _)).
  rewrite Hrest. cbn [fst zip_file].
  intros [H|H]%elem_of_app.
  - revert H. change (("package.json" : string) ∉ tail (root_names fileType)).
    destruct fileType; by_evaluation.
  - apply list_elem_of_In, in_map_iff in H as (n & [=] & _).
Qed.

(** *** The ghost file loop *)

Lemma filter_app (p : ascii -> bool) (a b : string) :
  Str.filter p (a ^^ b) = Str.filter p a ^^ Str.filter p b.
Proof.
  induction a as [|c a IH]; simpl; [done|]. rewrite IH. by destruct (p c).
Qed.

Lemma filter_forallb (p : ascii -> bool) (s : string) :
  Str.forallb p (Str.filter p s) = true.
Proof.
  induction s as [|c s IH]; simpl; [done|].
  destruct (p c) eqn:E; [|done]. simpl. by rewrite E.
Qed.

Lemma componentName_alnum (last : string) :
  Str.forallb Char.is_alnum (componentName last) = true.
Proof.
  unfold componentName. destruct (Str.truthy _); [apply filter_forallb|reflexivity].
Qed.

Lemma alternatives_match (l : list string) :
  forall (R : Type) (s : string) (cap : option string)
         (k : string -> option string -> option R) (x : R),
    l <> [] ->
    rmatch (alternatives l) s cap k = Some x ->
    exists e s', e ∈ l /\ s = e ^^ s' /\ k s' cap = Some x.
Proof.
  induction l as [|e l IH]; intros R s cap k x Hne; [done|].
  destruct l as [|e' l].
  - cbn [alternatives rmatch].
    destruct (Str.strip_prefix e s) as [s'|] eqn:E; [|done].
    apply StrFacts.strip_prefix_app in E. intros H.
    exists e, s'. split; [apply list_elem_of_here|done].
  - change (alternatives (e :: e' :: l)) with (Alt (Lit e) (alternatives (e' :: l))).
    cbn [rmatch].
    destruct (Str.strip_prefix e s) as [s'|] eqn:E.
    + apply StrFacts.strip_prefix_app in E.
      destruct (k s' cap) as [y|] eqn:Ek.
      * intros [= ->]. exists e, s'. split; [apply list_elem_of_here|done].
      * intros H. apply IH in H as (e0 & s0 & H0 & H1 & H2); [|done].
        exists e0, s0. split; [by apply list_elem_of_further|done].
    + intros H. apply IH in H as (e0 & s0 & H0 & H1 & H2); [|done].
      exists e0, s0. split; [by apply list_elem_of_further|done].
Qed.

(** What a match of /\.(e1|e2|...)$/ says about the text. *)
Lemma test_extension (exts : list string) (s : string) :
  exts <> [] ->
  test (extensionRegex exts) s = true ->
  exists stem e, e ∈ exts /\ s = stem ^^ "." ^^ e.
Proof.
  intros Hne. unfold test.
  destruct (exec (extensionRegex exts) s) as [x|] eqn:E; [intros _|done].
  apply RegexFacts.exec_suffix in E as (pre & t & -> & H).
  revert H. unfold match_here, extensionRegex. cbn [rmatch].
  destruct (Str.strip_prefix "." t) as [t1|] eqn:E1; [|done].
  apply StrFacts.strip_prefix_app in E1 as ->.
  intros H. apply alternatives_match in H as (e & s' & He & -> & H); [|done].
  destruct s'; [|done].
  exists pre, e. split; [done|]. by rewrite StrFacts.app_nil_r.
Qed.

Lemma alternatives_complete (l : list string) (e : string) :
  forall (R : Type) (cap : option string)
         (k : string -> option string -> option R),
    e ∈ l -> is_Some (k EmptyString cap) ->
    is_Some (rmatch (alternatives l) e cap k).
Proof.
  assert (Str.strip_prefix e e = Some EmptyString) as Hself.
  { apply StrFacts.strip_prefix_app. by rewrite StrFacts.app_nil_r. }
  induction l as [|e0 l IH]; intros R cap k Hin Hk; [by apply elem_of_nil in Hin|].
  destruct l as [|e1 l].
  - apply list_elem_of_singleton in Hin as ->.
    cbn [alternatives rmatch]. by rewrite Hself.
  - change (alternatives (e0 :: e1 :: l)) with (Alt (Lit e0) (alternatives (e1 :: l))).
    cbn [rmatch].
    destruct (Str.strip_prefix e0 e) as [s'|] eqn:E.
    + destruct (k s' cap) as [y|] eqn:Ek; [done|].
      apply elem_of_cons in Hin as [->|Hin]; [|by apply IH].
      rewrite Hself in E. injection E as <-. rewrite Ek in Hk. by destruct Hk.
    + apply elem_of_cons in Hin as [->|Hin]; [|by apply IH].
      rewrite Hself in E. discriminate.
Qed.

Lemma test_extension_complete (exts : list string) (stem e : string) :
  e ∈ exts -> test (extensionRegex exts) (stem ^^ "." ^^ e) = true.
Proof.
  intros He. unfold test.
  destruct (RegexFacts.exec_app (extensionRegex exts) stem ("." ^^ e)) as [x ->];
    [|done].
  unfold match_here, extensionRegex. cbn [rmatch Str.app Str.strip_prefix].
  rewrite Ascii.eqb_refl. by apply alternatives_complete.
Qed.

(** The three tests of the loop fail exactly on the unrecognised names. *)
Lemma unrecognised_tests (last : string) :
  unrecognised last <->
  test (extensionRegex styleExtensions) last = false /\
  test (extensionRegex imageExtensions) last = false /\
  test (extensionRegex jsonExtensions) last = false.
Proof.
  unfold unrecognised, recognised_extensions. split.
  - intros H. repeat split; apply not_true_is_false;
      intros (stem & e & He & ->)%test_extension; try done;
      apply (H stem e eq_refl); rewrite !elem_of_app; tauto.
  - intros (H1 & H2 & H3) stem e -> [He|[He|He]%elem_of_app]%elem_of_app;
      apply (test_extension_complete _ stem) in He; congruence.
Qed.

Lemma ghostFile_no_dot (fileType : FileType) (importPath : string) :
  Str.includes "." (lastPart (cleanPath importPath)) = false ->
  ghostFile fileType importPath =
    (cleanPath importPath ^^ component_extension fileType,
     dummyContent (cleanPath importPath)
                  (componentName (lastPart (cleanPath importPath)))).
Proof.
  intros H. unfold ghostFile. rewrite H. by destruct fileType.
Qed.

Lemma ghostFile_unrecognised (fileType : FileType) (importPath : string) :
  Str.includes "." (lastPart (cleanPath importPath)) = true ->
  unrecognised (lastPart (cleanPath importPath)) ->
  ghostFile fileType importPath =
    (cleanPath importPath,
     dummyContent (cleanPath importPath)
                  (componentName (lastPart (cleanPath importPath)))).
Proof.
  intros H (H1 & H2 & H3)%unrecognised_tests.
  unfold ghostFile. by rewrite H, H1, H2, H3.
Qed.

(** A ghost file is stored under the cleaned path, unless it is a
    component that received the extension of the variant. *)
Lemma ghostFile_cases (fileType : FileType) (importPath : string) :
  fst (ghostFile fileType importPath) = cleanPath importPath \/
  ghostFile fileType importPath =
    (cleanPath importPath ^^ component_extension fileType,
     dummyContent (cleanPath importPath)
                  (componentName (lastPart (cleanPath importPath)))).
Proof.
  destruct (Str.includes "." (lastPart (cleanPath importPath))) eqn:E.
  - left. unfold ghostFile. rewrite E.
    by repeat (destruct (test _ _)).
  - right. by apply ghostFile_no_dot.
Qed.

Lemma zip_calls_ext (c1 c2 : GeneratedProjectConfig) (fileType : FileType) :
  fileContent c1 = fileContent c2 ->
  projectName c1 = projectName c2 ->
  dependencies c1 = dependencies c2 ->
  localImports c1 = localImports c2 ->
  zip_calls c1 fileType = zip_calls c2 fileType.
Proof.
  destruct c1, c2. cbn [fileContent projectName dependencies localImports].
  by intros -> -> -> ->.
Qed.

Lemma src_path_inj (a b : string) : "src/" ^^ a = "src/" ^^ b -> a = b.
Proof. by intros [= ->]. Qed.


Lemma component_extension_length (fileType : FileType) :
  Str.length (component_extension fileType) = 4.
Proof. by destruct fileType. Qed.

Lemma lines_app (l l' : list string) :
  Str.lines (l ++ l') = Str.lines l ^^ Str.lines l'.
Proof.
  unfold Str.lines, Str.concat. rewrite List.map_app.
  induction (List.map (fun x => x ^^ Str.nl) l) as [|x xs IH]; [done|].
  cbn [app fold_right]. by rewrite IH, StrFacts.app_assoc.
Qed.

Lemma dummyContent_exports (path id : string) :
  exists body,
    dummyContent path id =
      body ^^ "export default " ^^ id ^^ ";" ^^ nl ^^
      "export const " ^^ id ^^ "Named = " ^^ id ^^ ";" ^^ nl.
Proof.
  unfold dummyContent.
  match goal with
  | |- ex (fun body => nl ^^ Str.lines ?l = _) =>
      exists (nl ^^ Str.lines (take 8 l));
      change l with (take 8 l ++ drop 8 l)
  end.
  rewrite lines_app, (StrFacts.app_assoc nl). do 2 f_equal.
  cbn [drop]. unfold Str.lines. cbn [List.map Str.concat fold_right].
  by rewrite StrFacts.app_nil_r, !StrFacts.app_assoc.
Qed.

End GeneratorFacts.

(** * The claims of the specification *)

Import Regex Analyzer Spec.

(** ** Reference analyzer *)

(** C3, as stated, fails: a text without any import token that mentions
    the animation library's marker yields a non-empty package list. *)
Lemma analyze_no_imports_counterexample :
  ~ (has_import_token Samples.animated = false ->
     dependencies (analyzeDependencies Samples.animated) = [] /\
     localImports (analyzeDependencies Samples.animated) = []).
Proof. intros H. destruct (H eq_refl) as [H1 _]. vm_compute in H1. discriminate. Qed.

(** C3 (amended): for every input text [analyzeDependencies] returns: each
    of its two loops reaches the final [null] within [length code + 1]
    iterations, whatever the fuel above that.  For a text with neither
    [import] nor [require] in it, [localImports] is empty and
    [dependencies] is empty too unless the text contains one of the
    animation markers, in which case it is exactly [framer-motion]. *)
Theorem analyze_total_and_empty (code : string) :
  (forall fuel, Str.length code < fuel ->
                analyze_fuel fuel code = Some (analyzeDependencies code)) /\
  (has_import_token code = false ->
   localImports (analyzeDependencies code) = [] /\
   dependencies (analyzeDependencies code) =
     if has_motion_marker code then ["framer-motion"] else []).
Proof.
  split.
  - intros fuel Hfuel. unfold analyze_fuel, analyzeDependencies.
    pose proof (RegexFacts.match_all_spec importRegex code
                  AnalyzerFacts.importRegex_progresses) as H1.
    pose proof (RegexFacts.match_all_spec sideEffectImportRegex code
                  AnalyzerFacts.sideEffectImportRegex_progresses) as H2.
    rewrite (RegexFacts.exec_loop_more_fuel _ _ _ _ fuel H1) by lia.
    rewrite (RegexFacts.exec_loop_more_fuel _ _ _ _ fuel H2) by lia.
    done.
  - unfold has_import_token. intros [Hi Hr]%orb_false_iff.
    assert (match_all importRegex code = []) as E1.
    { unfold match_all. cbn [exec_loop].
      unfold importRegex. by rewrite RegexFacts.exec_none_alt_lit. }
    assert (match_all sideEffectImportRegex code = []) as E2.
    { unfold match_all. cbn [exec_loop].
      unfold sideEffectImportRegex. by rewrite RegexFacts.exec_none_lit. }
    unfold analyzeDependencies, finish. rewrite E1, E2.
    unfold has_motion_marker, smart_detection.
    destruct (Str.includes "motion." code || Str.includes "AnimatePresence" code);
      split; reflexivity.
Qed.

Lemma analyze_total_and_empty_witness :
  analyze_fuel 13 Samples.no_imports = Some (analyzeDependencies Samples.no_imports) /\
  localImports (analyzeDependencies Samples.no_imports) = [] /\
  dependencies (analyzeDependencies Samples.no_imports) = [].
Proof.
  destruct (analyze_total_and_empty Samples.no_imports) as [H1 H2].
  split.
  - apply H1. vm_compute. lia.
  - apply H2. reflexivity.
Defined.

(** C4: an external path is normalised before it is inserted.  On a path
    that is neither empty nor local, [cleanPackageName] returns the first
    two segments of a path starting with [@] and the first segment of any
    other path; that is what [processPath] inserts, so every extracted
    external path has its normal form among the dependencies unless the
    denylist removes it, and nothing else but the animation package is
    there.  An absent or empty path changes nothing. *)
Theorem external_paths_normalized (code : string) (path : string) (st : sets) :
  (external path = true ->
   cleanPackageName path = Some (normalize path) /\
   processPath (Some path) st =
     {| deps := set_add (normalize path) (deps st); locals := locals st |}) /\
  (Some path ∈ extracted code -> external path = true ->
   normalize path ∉ denylist ->
   normalize path ∈ dependencies (analyzeDependencies code)) /\
  (forall x, x ∈ dependencies (analyzeDependencies code) ->
             x = "framer-motion" \/
             exists p, Some p ∈ extracted code /\ external p = true /\ x = normalize p) /\
  cleanPackageName EmptyString = None /\
  processPath None st = st /\
  processPath (Some EmptyString) st = st.
Proof.
  split; [|split; [|split]].
  - intros H. split.
    + by apply AnalyzerFacts.cleanPackageName_external.
    + by apply AnalyzerFacts.processPath_external.
  - intros Hin He Hd. apply AnalyzerFacts.elem_of_dependencies.
    split; [done|]. right. by exists path.
  - intros x [_ [[_ ->]|H]]%AnalyzerFacts.elem_of_dependencies; [by left|by right].
  - done.
Qed.

Lemma external_paths_normalized_witness :
  normalize "lodash/debounce" = "lodash" /\
  cleanPackageName "lodash/debounce" = Some "lodash" /\
  dependencies (analyzeDependencies Samples.import_lodash) = ["lodash"] /\
  "lodash" ∈ dependencies (analyzeDependencies Samples.import_lodash).
Proof.
  destruct (external_paths_normalized Samples.import_lodash "lodash/debounce"
              {| deps := []; locals := [] |}) as (H1 & H2 & _).
  split; [reflexivity|]. split; [apply H1; reflexivity|].
  split; [reflexivity|].
  apply H2.
  - vm_compute. apply list_elem_of_here.
  - reflexivity.
  - vm_compute. intros H. by repeat (apply elem_of_cons in H as [[=]|H]); apply elem_of_nil in H.
Defined.

(** C5: the two sequences are disjoint.  Every local import starts with
    [.] or [/], no dependency does, and an extracted path that starts with
    [.] or [/] is in [localImports] as it was written and not in
    [dependencies]. *)
Theorem analyze_disjoint (code : string) :
  (forall x, x ∈ localImports (analyzeDependencies code) -> starts_local x = true) /\
  (forall x, x ∈ dependencies (analyzeDependencies code) -> starts_local x = false) /\
  (forall x, x ∈ localImports (analyzeDependencies code) ->
             x ∉ dependencies (analyzeDependencies code)) /\
  (forall path, Some path ∈ extracted code -> starts_local path = true ->
                path ∈ localImports (analyzeDependencies code) /\
                path ∉ dependencies (analyzeDependencies code)).
Proof.
  assert (forall x, x ∈ localImports (analyzeDependencies code) ->
                    starts_local x = true) as Hloc.
  { by intros x [_ H]%AnalyzerFacts.elem_of_localImports. }
  assert (forall x, x ∈ dependencies (analyzeDependencies code) ->
                    starts_local x = false) as Hdep.
  { intros x [_ [[_ ->]|(p & _ & He & ->)]]%AnalyzerFacts.elem_of_dependencies;
      [reflexivity|].
    destruct (AnalyzerFacts.cleanPackageName_external p He) as [_ Hn].
    by apply andb_true_iff in Hn as [_ Hn%negb_true_iff]. }
  assert (forall x, x ∈ localImports (analyzeDependencies code) ->
                    x ∉ dependencies (analyzeDependencies code)) as Hdis.
  { intros x H1 H2. apply Hloc in H1. apply Hdep in H2. congruence. }
  split; [done|]. split; [done|]. split; [done|].
  intros path Hin Hl.
  assert (path ∈ localImports (analyzeDependencies code)) as H.
  { by apply AnalyzerFacts.elem_of_localImports. }
  split; [done|]. by apply Hdis.
Qed.

Lemma analyze_disjoint_witness :
  localImports (analyzeDependencies Samples.import_local) = ["./a/b"] /\
  dependencies (analyzeDependencies Samples.import_local) = [] /\
  "./a/b" ∈ localImports (analyzeDependencies Samples.import_local) /\
  "./a/b" ∉ dependencies (analyzeDependencies Samples.import_local).
Proof.
  destruct (analyze_disjoint Samples.import_local) as (_ & _ & _ & H).
  split; [reflexivity|]. split; [reflexivity|].
  apply H.
  - vm_compute. apply list_elem_of_here.
  - reflexivity.
Defined.

(** C8: whatever the text imports, [dependencies] contains none of
    [react], [react-dom], [fs] and [path]. *)
Theorem analyze_denylist (code : string) :
  ("react" ∉ dependencies (analyzeDependencies code)) /\
  ("react-dom" ∉ dependencies (analyzeDependencies code)) /\
  ("fs" ∉ dependencies (analyzeDependencies code)) /\
  ("path" ∉ dependencies (analyzeDependencies code)).
Proof.
  assert (forall x, x ∈ denylist -> x ∉ dependencies (analyzeDependencies code)) as H.
  { intros x Hx [Hd _]%AnalyzerFacts.elem_of_dependencies. done. }
  unfold denylist in H.
  repeat split; apply H; rewrite !elem_of_cons; tauto.
Qed.

Example analyze_denied_imports :
  extracted Samples.import_denied =
    [Some "react"; Some "react-dom/client"; Some "fs"; Some "path"; Some "lodash"] /\
  dependencies (analyzeDependencies Samples.import_denied) = ["lodash"].
Proof. split; reflexivity. Qed.

(** The first pattern runs from an [import] to the next [from] of the line,
    so it steps over the side-effect import, which the second pattern
    finds. *)
Example analyze_mixed :
  match_all importRegex Samples.mixed =
    [Some "react"; Some "@scope/pkg/deep"; Some "./zz"; Some "fs"] /\
  match_all sideEffectImportRegex Samples.mixed = [Some "./a.css"] /\
  analyzeDependencies Samples.mixed =
    {| dependencies := ["@scope/pkg"]; localImports := ["./zz"; "./a.css"] |}.
Proof. repeat split; reflexivity. Qed.

Example analyze_scoped :
  dependencies (analyzeDependencies Samples.import_scoped) = ["@scope/pkg"].
Proof. reflexivity. Qed.

(** ** Scaffold generator *)

Import Generator.

(** C1, as stated, fails: the slug of [My Cool App!!] keeps the two
    exclamation marks. *)
Lemma slug_counterexample :
  name (packageJson Samples.cool_app TSX) = "my-cool-app!!" /\
  ~ (Str.forallb slug_char (name (packageJson Samples.cool_app TSX)) = true).
Proof. split; [reflexivity|]. vm_compute. discriminate. Qed.

(** C1 (amended): for every project name, the [name] field of the manifest
    stored under [package.json] is the name in lower case with each run of
    blanks replaced by one hyphen; it contains no blank and no uppercase
    letter.  Other characters, punctuation included, are kept. *)
Theorem manifest_name_lowered (clock : nat -> Z) (config : GeneratedProjectConfig)
    (fileType : FileType) :
  tree (generateProjectZip clock config fileType) !! "package.json" =
    Some (JSON.stringify (packageJson_json (packageJson config fileType))) /\
  name (packageJson config fileType) =
    replace_spaces false (toLowerCase (projectName config)) /\
  Str.forallb lowered_char (name (packageJson config fileType)) = true.
Proof.
  split; [apply GeneratorFacts.manifest_written|]. split; [reflexivity|].
  apply GeneratorFacts.replace_spaces_lowered, GeneratorFacts.toLowerCase_no_uppercase.
Qed.

(** C2, as stated, fails: for the variant JSX the dev-dependencies still
    hold packages of type declarations. *)
Lemma type_packages_counterexample :
  isTS JSX = false /\
  ~ (has_type_declarations (devDependencies (packageJson Samples.cool_app JSX)) = false).
Proof. split; [reflexivity|]. vm_compute. discriminate. Qed.

(** C2 (amended): the dev-dependencies hold [typescript] and [@types/node],
    and the tree holds [tsconfig.json] and [tsconfig.node.json], exactly
    when the variant is TS or TSX; for every other variant none of the four
    is there.  [@types/react] and [@types/react-dom] are among the
    dev-dependencies for every variant. *)
Theorem typed_variant_files (clock : nat -> Z) (config : GeneratedProjectConfig)
    (fileType : FileType) :
  let dev := List.map fst (devDependencies (packageJson config fileType)) in
  let files := tree (generateProjectZip clock config fileType) in
  ("typescript" ∈ dev <-> isTS fileType = true) /\
  ("@types/node" ∈ dev <-> isTS fileType = true) /\
  (is_Some (files !! "tsconfig.json") <-> isTS fileType = true) /\
  (is_Some (files !! "tsconfig.node.json") <-> isTS fileType = true) /\
  "@types/react" ∈ dev /\
  "@types/react-dom" ∈ dev.
Proof.
  intros dev files. subst dev files.
  rewrite !GeneratorFacts.lookup_tree, !GeneratorFacts.last_write_is_Some.
  rewrite !GeneratorFacts.elem_of_zip_paths_root by reflexivity.
  unfold packageJson. cbn [devDependencies].
  destruct fileType; cbn [isTS];
    (repeat split; try done; try discriminate; try by_evaluation;
     intros H; exfalso; revert H; by_evaluation).
Qed.


(** The colliding imports are what the analyzer extracts from the content
    of that sample. *)
Example colliding_from_analysis :
  Analyzer.localImports (analyzeDependencies (fileContent Samples.colliding)) =
    localImports Samples.colliding.
Proof. reflexivity. Qed.



(** C7: two calls of the generator on inputs with the same content,
    project name, dependencies, local imports and variant, made at
    different times, produce trees with the same set of paths and the same
    text under each path; only the dates in the archive may differ. *)
Theorem generate_deterministic (clock1 clock2 : nat -> Z)
    (c1 c2 : GeneratedProjectConfig) (fileType : FileType) :
  fileContent c1 = fileContent c2 ->
  projectName c1 = projectName c2 ->
  dependencies c1 = dependencies c2 ->
  localImports c1 = localImports c2 ->
  tree (generateProjectZip clock1 c1 fileType) =
    tree (generateProjectZip clock2 c2 fileType) /\
  dom (generateProjectZip clock1 c1 fileType) =@{gset string}
    dom (generateProjectZip clock2 c2 fileType).
Proof.
  intros H1 H2 H3 H4.
  assert (tree (generateProjectZip clock1 c1 fileType) =
          tree (generateProjectZip clock2 c2 fileType)) as Ht.
  { rewrite !GeneratorFacts.tree_generate.
    by rewrite (GeneratorFacts.zip_calls_ext c1 c2). }
  split; [done|].
  apply (f_equal dom) in Ht. unfold tree in Ht. by rewrite !dom_fmap_L in Ht.
Qed.

Lemma generate_deterministic_witness :
  tree (generateProjectZip Samples.epoch Samples.cool_app TSX) =
    tree (generateProjectZip Samples.ticking
            (with_fileName "Other.tsx" Samples.cool_app) TSX) /\
  dom (generateProjectZip Samples.epoch Samples.cool_app TSX) =@{gset string}
    dom (generateProjectZip Samples.ticking
           (with_fileName "Other.tsx" Samples.cool_app) TSX).
Proof.
  apply (generate_deterministic Samples.epoch Samples.ticking Samples.cool_app
           (with_fileName "Other.tsx" Samples.cool_app) TSX); reflexivity.
Defined.

(** The archives of two such calls do differ, in the dates. *)
Example archives_differ_in_dates :
  date <$> generateProjectZip Samples.epoch Samples.cool_app TSX !! "index.html"
    = Some 0%Z /\
  date <$> generateProjectZip Samples.ticking Samples.cool_app TSX !! "index.html"
    = Some 1700000000005%Z.
Proof. split; vm_compute; reflexivity. Qed.

(** C10: the tree does not depend on [fileName].  Replacing the file name
    of a configuration changes neither the archive, nor the paths of the
    tree, nor the text under any path; the content is passed to the folder
    [src] under [App.tsx] or [App.jsx], a name fixed by the variant alone,
    and the tree holds it there unless a local import is stored under that
    very name. *)
Theorem fileName_irrelevant (clock : nat -> Z) (config : GeneratedProjectConfig)
    (fileType : FileType) (fn : string) :
  tree (generateProjectZip clock (with_fileName fn config) fileType) =
    tree (generateProjectZip clock config fileType) /\
  dom (generateProjectZip clock (with_fileName fn config) fileType) =@{gset string}
    dom (generateProjectZip clock config fileType) /\
  src_file ("App." ^^ jsxExt fileType) (fileContent config)
    ∈ zip_calls (with_fileName fn config) fileType /\
  ((forall importPath, importPath ∈ localImports config ->
      fst (ghostFile fileType importPath) <> "App." ^^ jsxExt fileType) ->
   tree (generateProjectZip clock (with_fileName fn config) fileType)
     !! ("src/App." ^^ jsxExt fileType) = Some (fileContent config)).
Proof.
  assert (zip_calls (with_fileName fn config) fileType = zip_calls config fileType)
    as Hcalls by reflexivity.
  assert (generateProjectZip clock (with_fileName fn config) fileType =
          generateProjectZip clock config fileType) as Hzip by reflexivity.
  rewrite Hzip, Hcalls. split; [done|]. split; [done|]. split.
  - unfold zip_calls, entry_calls. rewrite !elem_of_app. right; left.
    apply list_elem_of_further. destruct fileType; apply list_elem_of_here.
  - intros Hghost. rewrite GeneratorFacts.lookup_tree. unfold zip_calls.
    rewrite (GeneratorFacts.last_write_app _ (root_calls _ _)).
    unfold entry_calls. rewrite <- List.app_comm_cons.
    change (src_file (appFileName fileType) (fileContent config))
      with ("src/App." ^^ jsxExt fileType, fileContent config).
    apply (GeneratorFacts.last_write_later _ _ [_]).
    intros c [Hc|Hc%list_elem_of_singleton]%elem_of_app Hpath.
    + unfold ghost_calls in Hc.
      apply list_elem_of_In, in_map_iff in Hc as (other & <- & Hother).
      apply list_elem_of_In in Hother. cbn [fst snd src_file] in *.
      apply (GeneratorFacts.src_path_inj _ ("App." ^^ _)) in Hpath.
      by apply Hghost in Hother.
    + subst c. exfalso. revert Hpath. by destruct fileType.
Qed.

Lemma fileName_irrelevant_witness :
  tree (generateProjectZip Samples.ticking
          (with_fileName "Dashboard.tsx" Samples.cool_app) TSX)
    !! "src/App.tsx" = Some (fileContent Samples.cool_app).
Proof.
  destruct (fileName_irrelevant Samples.ticking Samples.cool_app TSX "Dashboard.tsx")
    as (_ & _ & _ & H).
  apply H. intros importPath Hin. by_evaluation_in Hin.
Defined.

(** * Further properties of the code *)

(** ** The dependency map of the manifest *)

Module ObjFacts.
Import Notions.

Ltac decide_ext :=
  match goal with
  | |- (if bool_decide ?P then _ else _) = (if bool_decide ?Q then _ else _) =>
      rewrite (bool_decide_ext P Q); [reflexivity|]
  end.

Lemma get_own_add_key (k k' v : string) (o : Obj.obj) :
  Obj.get_own k o = None ->
  Obj.get_own k' (Obj.add_key k v o) =
    if bool_decide (k = k') then Some v else Obj.get_own k' o.
Proof.
  induction o as [|[k0 v0] o IH]; intros H; [done|].
  cbn [Obj.get_own] in H. case_bool_decide as E0; [done|]. specialize (IH H).
  cbn [Obj.add_key].
  destruct (Obj.array_index k) as [n|], (Obj.array_index k0) as [n0|];
    try destruct (n <? n0)%N; cbn [Obj.get_own]; rewrite ?IH;
    repeat case_bool_decide; congruence.
Qed.

Lemma get_own_replace_key (k k' v : string) (o : Obj.obj) :
  is_Some (Obj.get_own k o) ->
  Obj.get_own k' (Obj.replace_key k v o) =
    if bool_decide (k = k') then Some v else Obj.get_own k' o.
Proof.
  induction o as [|[k0 v0] o IH]; intros H; [by destruct H|].
  cbn [Obj.get_own Obj.replace_key] in *.
  case_bool_decide as E0.
  - subst k0. cbn [Obj.get_own]. by repeat case_bool_decide.
  - specialize (IH H). cbn [Obj.get_own]. rewrite IH.
    repeat case_bool_decide; congruence.
Qed.

(** Reading after [o[k] = v]. *)
Lemma get_own_set (k k' v : string) (o : Obj.obj) :
  Obj.get_own k' (Obj.set k v o) =
    if bool_decide (k = k') then Some v else Obj.get_own k' o.
Proof.
  unfold Obj.set. destruct (Obj.get_own k o) eqn:E.
  - by apply get_own_replace_key.
  - by apply get_own_add_key.
Qed.

Lemma all_truthy_set_latest (k : string) (o : Obj.obj) :
  all_truthy o -> all_truthy (Obj.set k "latest" o).
Proof.
  intros H k' v. rewrite get_own_set. case_bool_decide; [by intros [= <-]|apply H].
Qed.

Lemma get_own_merge (deps : list string) :
  forall (o : Obj.obj) (k : string),
    all_truthy o ->
    Obj.get_own k (fold_left merge_step deps o) =
      match Obj.get_own k o with
      | Some v => Some v
      | None =>
          if bool_decide (k ∈ deps /\ k ∉ Obj.inherited) then Some "latest" else None
      end.
Proof.
  induction deps as [|dep deps IH]; intros o k Ho; cbn [fold_left].
  - destruct (Obj.get_own k o); [done|].
    rewrite bool_decide_eq_false_2; [done|]. intros [H%elem_of_nil _]. done.
  - unfold merge_step at 2. unfold Obj.get_truthy.
    destruct (Obj.get_own dep o) as [v|] eqn:E.
    + rewrite (Ho dep v E). cbn [negb]. rewrite (IH o k Ho).
      destruct (Obj.get_own k o) eqn:Ek; [done|].
      decide_ext. rewrite elem_of_cons.
      split; [tauto|]. intros [[->|H] H']; [congruence|done].
    + case_bool_decide as Einh; cbn [negb].
      * rewrite (IH o k Ho). destruct (Obj.get_own k o) eqn:Ek; [done|].
        decide_ext. rewrite elem_of_cons.
        split; [tauto|]. intros [[->|H] H']; [done|done].
      * rewrite (IH _ k (all_truthy_set_latest dep o Ho)), get_own_set.
        case_bool_decide as Ek.
        -- subst k. rewrite E. rewrite bool_decide_eq_true_2; [done|].
           split; [apply list_elem_of_here|done].
        -- destruct (Obj.get_own k o); [done|].
           decide_ext. rewrite elem_of_cons.
           split; [tauto|]. intros [[->|H] H']; [done|done].
Qed.

Lemma base_truthy : all_truthy Generator.baseDependencies.
Proof.
  intros k v. unfold Generator.baseDependencies. cbn [Obj.get_own].
  repeat (case_bool_decide; [by intros [= <-]|]). done.
Qed.

End ObjFacts.

(** X1: what the merged dependency map of the manifest holds under a
    name.  A baseline package keeps its pinned version, whatever the
    analysis lists; any other listed name is added with [latest], except
    the names every object inherits from [Object.prototype] (such as
    [constructor] or [toString]), which the truthiness test takes for
    present and which therefore never reach the manifest; nothing else is
    in the map. *)
Theorem merged_dependency_lookup (deps : list string) (k : string) :
  Obj.get_own k (mergeDependencies deps) =
    match Obj.get_own k baseDependencies with
    | Some v => Some v
    | None =>
        if bool_decide (k ∈ deps /\ k ∉ Obj.inherited) then Some "latest" else None
    end.
Proof.
  apply (ObjFacts.get_own_merge deps baseDependencies k ObjFacts.base_truthy).
Qed.

Example merged_dependency_samples :
  let o := mergeDependencies ["lodash"; "react"; "toString"; "framer-motion"] in
  Obj.get_own "lodash" o = Some "latest" /\
  Obj.get_own "react" o = Some "^19.0.0" /\
  Obj.get_own "framer-motion" o = Some "^11.0.0" /\
  Obj.get_own "toString" o = None.
Proof. repeat split; reflexivity. Qed.

(** ** The layout of the archive *)

Module LayoutFacts.
Import Regex Generator Spec.

Lemma lookup_archive_tree (files : gmap string ZipObject) (path : string) :
  is_Some (files !! path) <-> is_Some (tree files !! path).
Proof. unfold tree. rewrite lookup_fmap. by rewrite fmap_is_Some. Qed.

(** The calls after those on the root all go below [src/]. *)
Lemma zip_calls_split config fileType :
  exists rest,
    zip_calls config fileType = root_calls config fileType ++ rest /\
    forall c, c ∈ rest -> Str.startsWith "src/" (fst c) = true.
Proof.
  eexists. split; [reflexivity|].
  intros c. unfold entry_calls, ghost_calls. rewrite !elem_of_app.
  intros [H|[H|H]].
  - apply elem_of_cons in H as [->|H]; [done|].
    by apply list_elem_of_singleton in H as ->.
  - by apply list_elem_of_In, in_map_iff in H as (ip & <- & _).
  - by apply list_elem_of_singleton in H as ->.
Qed.

Lemma root_lookup (clock : nat -> Z) config fileType (path : string) :
  Str.startsWith "src/" path = false ->
  tree (generateProjectZip clock config fileType) !! path =
    last_write path (root_calls config fileType) None.
Proof.
  intros Hp. rewrite GeneratorFacts.lookup_tree.
  destruct (zip_calls_split config fileType) as (rest & -> & Hrest).
  rewrite GeneratorFacts.last_write_app. apply GeneratorFacts.last_write_other.
  intros c Hc E. apply Hrest in Hc. congruence.
Qed.

(** The calls on the root with any contents, for each kind of variant. *)
Lemma root_untyped_lookup (a b c d : string) :
  let calls := [("package.json", a); ("vite.config.js", b);
                ("postcss.config.js", c); ("index.html", d)] in
  last_write "vite.config.js" calls None = Some b /\
  last_write "postcss.config.js" calls None = Some c /\
  last_write "index.html" calls None = Some d.
Proof. repeat split; vm_compute; reflexivity. Qed.

Lemma root_typed_lookup (a b c t1 t2 d : string) :
  let calls := [("package.json", a); ("vite.config.ts", b);
                ("postcss.config.ts", c); ("tsconfig.json", t1);
                ("tsconfig.node.json", t2); ("index.html", d)] in
  last_write "vite.config.ts" calls None = Some b /\
  last_write "postcss.config.ts" calls None = Some c /\
  last_write "tsconfig.json" calls None = Some t1 /\
  last_write "tsconfig.node.json" calls None = Some t2 /\
  last_write "index.html" calls None = Some d.
Proof. repeat split; vm_compute; reflexivity. Qed.

(** The ghost file of an entry, as the loop stores it. *)
Lemma ghost_call_elem config fileType (importPath : string) :
  importPath ∈ localImports config ->
  src_file (fst (ghostFile fileType importPath)) (snd (ghostFile fileType importPath))
    ∈ zip_calls config fileType.
Proof.
  intros H. unfold zip_calls, ghost_calls. rewrite !elem_of_app. right; right; left.
  apply list_elem_of_In, in_map_iff. exists importPath.
  split; [done|]. by apply list_elem_of_In.
Qed.

(** The last entry stored under a path decides what the tree holds there,
    the stylesheet [index.css] apart. *)
Lemma ghost_last_writer (clock : nat -> Z) config fileType
    (before after : list string) (importPath : string) :
  localImports config = before ++ importPath :: after ->
  (forall other, other ∈ after ->
     fst (ghostFile fileType other) = fst (ghostFile fileType importPath) ->
     snd (ghostFile fileType other) = snd (ghostFile fileType importPath)) ->
  fst (ghostFile fileType importPath) <> "index.css" ->
  tree (generateProjectZip clock config fileType)
    !! ("src/" ^^ fst (ghostFile fileType importPath)) =
    Some (snd (ghostFile fileType importPath)).
Proof.
  intros Hsplit Hlater Hcss.
  rewrite GeneratorFacts.lookup_tree. unfold zip_calls, ghost_calls.
  rewrite Hsplit, List.map_app. cbn [List.map].
  rewrite (GeneratorFacts.last_write_app _ (root_calls _ _)).
  rewrite (GeneratorFacts.last_write_app _ (entry_calls _ _)).
  rewrite <- List.app_assoc, <- List.app_comm_cons.
  apply (GeneratorFacts.last_write_later ("src/" ^^ _)).
  intros c [Hc|Hc%list_elem_of_singleton]%elem_of_app Hpath.
  - apply list_elem_of_In, in_map_iff in Hc as (other & <- & Hother).
    apply list_elem_of_In in Hother. cbn [fst snd src_file] in *.
    apply GeneratorFacts.src_path_inj in Hpath. by apply Hlater.
  - subst c. cbn [fst src_file] in Hpath.
    apply GeneratorFacts.src_path_inj in Hpath. by destruct Hcss.
Qed.

(** A call made before the loop keeps its file when no entry is stored
    under its name. *)
Lemma entry_survives (clock : nat -> Z) config fileType (n content : string)
    (l1 l2 : list call) :
  entry_calls config fileType = l1 ++ src_file n content :: l2 ->
  (forall c, c ∈ l2 -> fst c <> "src/" ^^ n) ->
  n <> "index.css" ->
  (forall importPath, importPath ∈ localImports config ->
     fst (ghostFile fileType importPath) <> n) ->
  tree (generateProjectZip clock config fileType) !! ("src/" ^^ n) = Some content.
Proof.
  intros Hentry Hl2 Hcss Hghost.
  rewrite GeneratorFacts.lookup_tree. unfold zip_calls.
  rewrite (GeneratorFacts.last_write_app _ (root_calls _ _)).
  rewrite Hentry, <- List.app_assoc, <- List.app_comm_cons.
  apply (GeneratorFacts.last_write_later ("src/" ^^ n)).
  intros c [Hc|[Hc|Hc%list_elem_of_singleton]%elem_of_app]%elem_of_app Hpath.
  - by apply Hl2 in Hc.
  - unfold ghost_calls in Hc.
    apply list_elem_of_In, in_map_iff in Hc as (other & <- & Hother).
    apply list_elem_of_In in Hother. cbn [fst snd src_file] in *.
    apply GeneratorFacts.src_path_inj in Hpath. by apply Hghost in Hother.
  - subst c. cbn [fst src_file] in Hpath.
    apply GeneratorFacts.src_path_inj in Hpath. by destruct Hcss.
Qed.

Lemma write_all_size (calls : list call) :
  forall m : gmap string string, size (write_all calls m) <= size m + length calls.
Proof.
  unfold write_all. induction calls as [|c calls IH]; intros m; simpl; [lia|].
  etransitivity; [apply IH|]. rewrite map_size_insert.
  destruct (m !! fst c); unfold id; lia.
Qed.

End LayoutFacts.

(** X2: the files that no input can displace.  For every configuration
    and variant the tree holds the bundler configuration, the PostCSS
    configuration and [index.html] with their fixed texts (the title being
    the project name as typed), and [src/index.css] is always the global
    stylesheet, even when a local import names [index.css]: that call comes
    last. *)
Theorem fixed_files (clock : nat -> Z) (config : GeneratedProjectConfig)
    (fileType : FileType) :
  let files := tree (generateProjectZip clock config fileType) in
  files !! ("vite.config." ^^ ext fileType) = Some viteConfig /\
  files !! ("postcss.config." ^^ ext fileType) = Some postcssConfig /\
  files !! "index.html" = Some (html (projectName config) (jsxExt fileType)) /\
  files !! "src/index.css" = Some cssContent.
Proof.
  intros files. subst files.
  assert (forall path, tree (generateProjectZip clock config fileType) !! path =
                       last_write path (zip_calls config fileType) None) as Hcss
    by (intros; apply GeneratorFacts.lookup_tree).
  rewrite (Hcss "src/index.css").
  rewrite !LayoutFacts.root_lookup by (by destruct fileType).
  split; [|split; [|split]].
  4: { unfold zip_calls. rewrite !List.app_assoc.
       apply (GeneratorFacts.last_write_later "src/index.css" _ _ []).
       intros c Hc. by apply elem_of_nil in Hc. }
  all: unfold root_calls, zip_file; destruct fileType; cbn [isTS ext jsxExt app].
  all: first [ apply LayoutFacts.root_untyped_lookup
             | apply LayoutFacts.root_typed_lookup ].
Qed.

Example index_css_import_is_replaced :
  tree (generateProjectZip Samples.epoch
          {| fileName := "App.jsx"; fileContent := "import './index.css'";
             projectName := "demo"; dependencies := [];
             localImports := ["./index.css"] |} JSX) !! "src/index.css"
  = Some cssContent.
Proof. vm_compute. reflexivity. Qed.

(** X3: the files of the archive.  Looking a path up finds a file exactly
    when the path is one of the root names of the variant ([package.json],
    the two configuration files, the two [tsconfig] files of a typed
    variant, [index.html]) or [src/] followed by the entry script, the
    application file, [index.css] or the name under which the loop stores
    one of the local imports; so the archive has at most as many files as
    root names plus three plus local imports.  This is about the files
    only: the entries JSZip adds for the folders are not files and are not
    counted. *)
Theorem archive_files (clock : nat -> Z) (config : GeneratedProjectConfig)
    (fileType : FileType) (path : string) :
  (is_Some (generateProjectZip clock config fileType !! path) <->
   path ∈ root_names fileType \/
   exists n, n ∈ src_names config fileType /\ path = "src/" ^^ n) /\
  size (generateProjectZip clock config fileType) <=
    length (root_names fileType) + 3 + length (localImports config).
Proof.
  assert (forall p, is_Some (generateProjectZip clock config fileType !! p) <->
                    p ∈ List.map fst (zip_calls config fileType)) as Hdom.
  { intros p. rewrite LayoutFacts.lookup_archive_tree.
    by rewrite GeneratorFacts.lookup_tree, GeneratorFacts.last_write_is_Some. }
  split.
  - rewrite Hdom, GeneratorFacts.zip_paths, elem_of_app.
    apply or_iff_compat_l. rewrite list_elem_of_In, in_map_iff.
    split; intros (n & H1 & H2); exists n; by rewrite ?list_elem_of_In in *.
  - assert (size (generateProjectZip clock config fileType) =
            size (tree (generateProjectZip clock config fileType))) as ->
      by (unfold tree; by rewrite map_size_fmap).
    rewrite GeneratorFacts.tree_generate.
    etransitivity; [apply LayoutFacts.write_all_size|].
    rewrite map_size_empty.
    assert (length (zip_calls config fileType) =
            length (List.map fst (zip_calls config fileType))) as ->
      by (symmetry; apply List.length_map).
    rewrite GeneratorFacts.zip_paths. unfold src_names.
    rewrite !List.length_app, !List.length_map, !List.length_app, !List.length_map.
    simpl. lia.
Qed.

(** X4: every local import gets a file.  Whatever the list of local
    imports, the tree holds some file under the name the loop computes for
    each of them, so no import of the user's file is left without a
    target. *)
Theorem every_local_import_has_a_file (clock : nat -> Z)
    (config : GeneratedProjectConfig) (fileType : FileType) (importPath : string) :
  importPath ∈ localImports config ->
  is_Some (tree (generateProjectZip clock config fileType)
             !! ("src/" ^^ fst (ghostFile fileType importPath))).
Proof.
  intros H. rewrite GeneratorFacts.lookup_tree, GeneratorFacts.last_write_is_Some.
  apply list_elem_of_In, in_map_iff.
  exists (src_file (fst (ghostFile fileType importPath))
                   (snd (ghostFile fileType importPath))).
  split; [done|]. by apply list_elem_of_In, LayoutFacts.ghost_call_elem.
Qed.

Lemma every_local_import_has_a_file_witness :
  is_Some (tree (generateProjectZip Samples.epoch Samples.cool_app TSX)
             !! "src/styles/main.css").
Proof.
  apply (every_local_import_has_a_file Samples.epoch Samples.cool_app TSX
           "./styles/main.css").
  vm_compute. do 2 apply list_elem_of_further. apply list_elem_of_here.
Defined.

(** X5: the last writer wins.  When several local imports are stored
    under one name, the tree holds the file of the last of them: the file
    of an entry is in the tree whenever no later entry is stored under the
    same name and that name is not [index.css]. *)
Theorem last_import_wins (clock : nat -> Z) (config : GeneratedProjectConfig)
    (fileType : FileType) (before after : list string) (importPath : string) :
  localImports config = before ++ importPath :: after ->
  (forall other, other ∈ after ->
     fst (ghostFile fileType other) <> fst (ghostFile fileType importPath)) ->
  fst (ghostFile fileType importPath) <> "index.css" ->
  tree (generateProjectZip clock config fileType)
    !! ("src/" ^^ fst (ghostFile fileType importPath)) =
    Some (snd (ghostFile fileType importPath)).
Proof.
  intros Hsplit Hlater Hcss. apply (LayoutFacts.ghost_last_writer _ _ _ before after);
    [done| |done].
  intros other Hother E. by apply Hlater in Hother.
Qed.

(** An import of [./App] takes the place of the user's own file. *)
Lemma last_import_wins_witness :
  tree (generateProjectZip Samples.epoch
          {| fileName := "main.tsx"; fileContent := "import App from './App'";
             projectName := "demo"; dependencies := [];
             localImports := ["./App"] |} TSX) !! "src/App.tsx"
  = Some (dummyContent "App" "App").
Proof.
  apply (last_import_wins Samples.epoch
           {| fileName := "main.tsx"; fileContent := "import App from './App'";
              projectName := "demo"; dependencies := [];
              localImports := ["./App"] |} TSX [] [] "./App").
  - reflexivity.
  - intros other Hother. by apply elem_of_nil in Hother.
  - vm_compute. discriminate.
Defined.

(** X6: the entry script.  [src/main.tsx] or [src/main.jsx], by the
    variant, holds the fixed entry script unless a local import is stored
    under that very name. *)
Theorem entry_script_kept (clock : nat -> Z) (config : GeneratedProjectConfig)
    (fileType : FileType) :
  (forall importPath, importPath ∈ localImports config ->
     fst (ghostFile fileType importPath) <> "main." ^^ jsxExt fileType) ->
  tree (generateProjectZip clock config fileType)
    !! ("src/main." ^^ jsxExt fileType) = Some mainContent.
Proof.
  intros H.
  apply (LayoutFacts.entry_survives clock config fileType
           ("main." ^^ jsxExt fileType) mainContent []
           [src_file (appFileName fileType) (fileContent config)]).
  - reflexivity.
  - intros c ->%list_elem_of_singleton. by destruct fileType.
  - by destruct fileType.
  - done.
Qed.

Lemma entry_script_kept_witness :
  tree (generateProjectZip Samples.ticking Samples.cool_app JS) !! "src/main.jsx"
  = Some mainContent.
Proof.
  apply (entry_script_kept Samples.ticking Samples.cool_app JS).
  intros importPath Hin. by_evaluation_in Hin.
Defined.

(** ** Placeholders by extension *)

Module ExtensionFacts.
Import Regex Generator Spec.

Lemma includes_dot (x y : string) : Str.includes "." (x ^^ "." ^^ y) = true.
Proof.
  induction x as [|c x IH]; [done|].
  change (String c x ^^ "." ^^ y) with (String c (x ^^ "." ^^ y)).
  cbn [Str.includes]. rewrite IH. apply orb_true_r.
Qed.

(** What follows the last dot of a name is determined by the name. *)
Lemma extension_unique (a a' e e' : string) :
  Str.includes "." e = false -> Str.includes "." e' = false ->
  a ^^ "." ^^ e = a' ^^ "." ^^ e' -> e = e'.
Proof.
  intros He He'. revert a'.
  induction a as [|c a IH]; intros [|c' a'] H; cbn [Str.app] in H.
  - by injection H.
  - injection H as _ H. rewrite H in He.
    change (Str.includes "." (a' ^^ "." ^^ e') = false) in He.
    rewrite includes_dot in He. discriminate.
  - injection H as _ H. rewrite <- H in He'.
    change (Str.includes "." (a ^^ "." ^^ e) = false) in He'.
    rewrite includes_dot in He'. discriminate.
  - injection H as _ H. by apply (IH a').
Qed.

Lemma recognised_dot_free (e : string) :
  e ∈ recognised_extensions -> Str.includes "." e = false.
Proof.
  revert e. apply Forall_forall. by_evaluation.
Qed.

Lemma style_not_image (e : string) :
  e ∈ styleExtensions -> (e ∉ imageExtensions) /\ (e ∉ jsonExtensions).
Proof. revert e. apply Forall_forall. by_evaluation. Qed.

Lemma image_not_json (e : string) : e ∈ imageExtensions -> e ∉ jsonExtensions.
Proof. revert e. apply Forall_forall. by_evaluation. Qed.

Lemma elem_of_recognised (e : string) :
  e ∈ recognised_extensions <->
  e ∈ styleExtensions \/ e ∈ imageExtensions \/ e ∈ jsonExtensions.
Proof. unfold recognised_extensions. by rewrite !elem_of_app. Qed.

(** A test of the loop succeeds exactly on the names whose extension is in
    its list. *)
Lemma test_extension_iff (exts : list string) (stem e : string) :
  exts <> [] -> (forall x, x ∈ exts -> x ∈ recognised_extensions) ->
  e ∈ recognised_extensions ->
  test (extensionRegex exts) (stem ^^ "." ^^ e) = true <-> e ∈ exts.
Proof.
  intros Hne Hsub He. split; [|apply GeneratorFacts.test_extension_complete].
  intros (stem' & e' & He' & H)%GeneratorFacts.test_extension; [|done].
  apply extension_unique in H as ->; auto using recognised_dot_free.
Qed.

End ExtensionFacts.

(** X7: placeholders by extension.  For a local import whose final
    segment ends in a dot followed by a recognised extension, the loop
    stores its file under the cleaned path as it is, with no extension
    added and no component: the style comment for css, scss, sass, less and
    styl, the placeholder image for png, jpg, jpeg, svg, gif, webp, ico and
    bmp, an empty object for json. *)
Theorem recognised_extension_placeholder (fileType : FileType)
    (importPath stem e : string) :
  lastPart (cleanPath importPath) = stem ^^ "." ^^ e ->
  (e ∈ styleExtensions ->
   ghostFile fileType importPath = (cleanPath importPath, placeholderStyle)) /\
  (e ∈ imageExtensions ->
   ghostFile fileType importPath = (cleanPath importPath, placeholderImage)) /\
  (e ∈ jsonExtensions ->
   ghostFile fileType importPath = (cleanPath importPath, "{}")).
Proof.
  intros Hlast. unfold ghostFile. rewrite Hlast, ExtensionFacts.includes_dot.
  assert (forall exts, exts <> [] ->
            (forall x, x ∈ exts -> x ∈ recognised_extensions) ->
            e ∈ recognised_extensions ->
            test (extensionRegex exts) (stem ^^ "." ^^ e) = bool_decide (e ∈ exts))
    as Htest.
  { intros exts Hne Hsub He. apply eq_true_iff_eq.
    rewrite bool_decide_eq_true. by apply ExtensionFacts.test_extension_iff. }
  assert (forall x, x ∈ styleExtensions -> x ∈ recognised_extensions) as Hs
    by (intros; apply ExtensionFacts.elem_of_recognised; tauto).
  assert (forall x, x ∈ imageExtensions -> x ∈ recognised_extensions) as Hi
    by (intros; apply ExtensionFacts.elem_of_recognised; tauto).
  assert (forall x, x ∈ jsonExtensions -> x ∈ recognised_extensions) as Hj
    by (intros; apply ExtensionFacts.elem_of_recognised; tauto).
  split; [|split]; intros He.
  - rewrite Htest by auto. by rewrite bool_decide_eq_true_2.
  - rewrite !Htest by auto.
    rewrite (bool_decide_eq_false_2 (e ∈ styleExtensions)).
    + by rewrite bool_decide_eq_true_2.
    + intros H. by apply ExtensionFacts.style_not_image in H as [H _].
  - rewrite !Htest by auto.
    rewrite (bool_decide_eq_false_2 (e ∈ styleExtensions)).
    + rewrite (bool_decide_eq_false_2 (e ∈ imageExtensions)).
      * by rewrite bool_decide_eq_true_2.
      * intros H. by apply ExtensionFacts.image_not_json in H.
    + intros H. by apply ExtensionFacts.style_not_image in H as [_ H].
Qed.

Lemma recognised_extension_placeholder_witness :
  ghostFile TSX "./styles/main.module.scss" = ("styles/main.module.scss", placeholderStyle) /\
  ghostFile JS "/assets/logo.v2.svg" = ("assets/logo.v2.svg", placeholderImage) /\
  ghostFile TS "./data/users.json" = ("data/users.json", "{}").
Proof.
  split; [|split].
  - apply (recognised_extension_placeholder TSX "./styles/main.module.scss"
             "main.module" "scss"); [reflexivity|by_evaluation].
  - apply (recognised_extension_placeholder JS "/assets/logo.v2.svg"
             "logo.v2" "svg"); [reflexivity|by_evaluation].
  - apply (recognised_extension_placeholder TS "./data/users.json"
             "users" "json"); [reflexivity|by_evaluation].
Defined.

(** X8: what [cleanPath] removes and what it keeps.  It drops one leading
    [./] and then one leading [/], nothing more; a path that climbs with
    [../] is left as it is, so the file of such an import is stored under
    [src/../...], a name that leaves the folder. *)
Theorem parent_relative_import_kept (fileType : FileType) (rest : string) :
  cleanPath ("../" ^^ rest) = "../" ^^ rest /\
  Str.startsWith "src/../"
    (fst (src_file (fst (ghostFile fileType ("../" ^^ rest)))
                   (snd (ghostFile fileType ("../" ^^ rest))))) = true.
Proof.
  split; [reflexivity|].
  destruct (GeneratorFacts.ghostFile_cases fileType ("../" ^^ rest)) as [-> | ->];
    reflexivity.
Qed.

Example cleanPath_samples :
  cleanPath "./a/b" = "a/b" /\ cleanPath "/a/b" = "a/b" /\
  cleanPath ".//a" = "a" /\ cleanPath "././a" = "./a" /\
  cleanPath "//a" = "/a" /\ cleanPath ".hidden" = ".hidden".
Proof. repeat split; reflexivity. Qed.

(** ** The slug *)

Module SlugFacts.
Import Generator Spec.

Lemma to_lower_fixed (c : ascii) : Char.is_uppercase c = false -> Char.to_lower c = c.
Proof. unfold Char.to_lower. by intros ->. Qed.

Lemma slug_fixed (s : string) : Str.forallb lowered_char s = true -> slug s = s.
Proof.
  unfold slug, toLowerCase. induction s as [|c s IH]; [done|].
  cbn [Str.forallb Str.map]. unfold lowered_char at 1.
  intros [[Hs%negb_true_iff Hu%negb_true_iff]%andb_true_iff H]%andb_true_iff.
  rewrite (to_lower_fixed c Hu). cbn [replace_spaces]. rewrite Hs.
  by rewrite (IH H).
Qed.

Lemma slug_lowered (s : string) : Str.forallb lowered_char (slug s) = true.
Proof.
  apply GeneratorFacts.replace_spaces_lowered, GeneratorFacts.toLowerCase_no_uppercase.
Qed.

Lemma replace_spaces_length (in_run : bool) (s : string) :
  Str.length (replace_spaces in_run s) <= Str.length s.
Proof.
  revert in_run; induction s as [|c s IH]; intros in_run; simpl; [done|].
  pose proof (IH true). pose proof (IH false).
  destruct (Char.is_space c); [destruct in_run|]; simpl; lia.
Qed.

Lemma map_length (f : ascii -> ascii) (s : string) :
  Str.length (Str.map f s) = Str.length s.
Proof. induction s as [|c s IH]; simpl; congruence. Qed.

End SlugFacts.

(** X9: the slug of the manifest name.  Computing it twice gives the same
    as computing it once; replacing the runs of blanks never makes the
    lowered name longer (the bound is against the lowered name, not the
    name as typed: lowering a character outside the code units covered
    here can give two); and the slug is empty only for the empty project
    name: nothing in the generator keeps an empty name out of the
    manifest. *)
Theorem slug_idempotent_bounded (projectName : string) :
  slug (slug projectName) = slug projectName /\
  Str.length (slug projectName) <= Str.length (toLowerCase projectName) /\
  (slug projectName = EmptyString <-> projectName = EmptyString).
Proof.
  split; [apply SlugFacts.slug_fixed, SlugFacts.slug_lowered|]. split.
  - unfold slug. apply SlugFacts.replace_spaces_length.
  - split; [|by intros ->].
    destruct projectName as [|c s]; [done|].
    unfold slug, toLowerCase. cbn [Str.map replace_spaces].
    by destruct (Char.is_space (Char.to_lower c)).
Qed.

Example slug_samples :
  slug "  Neon   App 01 " = "-neon-app-01-" /\ slug "   " = "-" /\
  name (packageJson (with_fileName "x" {| fileName := "x"; fileContent := "y";
          projectName := EmptyString; dependencies := []; localImports := [] |}) JS)
    = EmptyString.
Proof. repeat split; reflexivity. Qed.

(** ** What the two patterns capture *)

Module CaptureFacts.
Import Regex Analyzer Notions.

Section Split.
Context {R : Type} (p : ascii -> bool) (k : string -> option R).

Lemma star_greedy_split (s : string) (x : R) :
  star_greedy p k s = Some x ->
  exists m s', s = m ^^ s' /\ Str.forallb p m = true /\ k s' = Some x.
Proof.
  induction s as [|c s IH]; simpl.
  - intros H. by exists EmptyString, EmptyString.
  - destruct (p c) eqn:Ec.
    + destruct (star_greedy p k s) as [y|] eqn:E.
      * intros [= ->]. destruct (IH eq_refl) as (m & s' & -> & Hm & Hk).
        exists (String c m), s'. simpl. by rewrite Ec, Hm.
      * intros H. by exists EmptyString, (String c s).
    + intros H. by exists EmptyString, (String c s).
Qed.

Lemma star_lazy_split (s : string) (x : R) :
  star_lazy p k s = Some x ->
  exists m s', s = m ^^ s' /\ Str.forallb p m = true /\ k s' = Some x.
Proof.
  induction s as [|c s IH]; simpl.
  - destruct (k EmptyString) eqn:E; [|done].
    intros [= ->]. by exists EmptyString, EmptyString.
  - destruct (k (String c s)) eqn:E.
    + intros [= ->]. by exists EmptyString, (String c s).
    + destruct (p c) eqn:Ec; [|done]. intros H.
      destruct (IH H) as (m & s' & -> & Hm & Hk).
      exists (String c m), s'. simpl. by rewrite Ec, Hm.
Qed.

End Split.

(** A match hands to its continuation what is left of the text. *)
Lemma rmatch_split (r : regex) :
  forall (R : Type) (s : string) (cap : option string)
         (k : string -> option string -> option R) (x : R),
    rmatch r s cap k = Some x ->
    exists m s' cap', s = m ^^ s' /\ k s' cap' = Some x.
Proof.
  induction r as [l|p|r1 IH1 r2 IH2|r1 IH1 r2 IH2|p|p|r IH|];
    intros R s cap k x; simpl.
  - destruct (Str.strip_prefix l s) as [s'|] eqn:E; [|done].
    apply StrFacts.strip_prefix_app in E. intros H. by exists l, s', cap.
  - destruct s as [|c s]; [done|]. destruct (p c); [|done].
    intros H. by exists (Str.of_char c), s, cap.
  - intros H. apply IH1 in H as (m1 & s1 & cap1 & -> & H).
    apply IH2 in H as (m2 & s2 & cap2 & -> & H).
    exists (m1 ^^ m2), s2, cap2. by rewrite StrFacts.app_assoc.
  - destruct (rmatch r1 s cap k) as [y|] eqn:E.
    + intros [= ->]. by apply IH1 in E.
    + apply IH2.
  - intros H. apply star_greedy_split in H as (m & s' & -> & _ & H).
    by exists m, s', cap.
  - intros H. apply star_lazy_split in H as (m & s' & -> & _ & H).
    by exists m, s', cap.
  - intros H. apply IH in H as (m & s' & cap' & -> & H).
    by exists m, s', (Some (consumed (m ^^ s') s')).
  - destruct s; [|done]. intros H. by exists EmptyString, EmptyString, cap.
Qed.

Lemma take_app (a b : string) : Str.take (Str.length a) (a ^^ b) = a.
Proof. induction a as [|c a IH]; simpl; [by destruct b|by rewrite IH]. Qed.

Lemma consumed_app (a b : string) : consumed (a ^^ b) b = a.
Proof.
  unfold consumed. rewrite StrFacts.length_app.
  replace (Str.length a + Str.length b - Str.length b) with (Str.length a) by lia.
  apply take_app.
Qed.

(** What a match of the tail of the patterns consists of. *)
Lemma quoted_path_match (s rest : string) (cap0 cap : option string) :
  rmatch quoted_path s cap0 (fun s' cap' => Some (s', cap')) = Some (rest, cap) ->
  exists path q1 q2,
    cap = Some path /\ path <> EmptyString /\
    Str.forallb Char.not_quote path = true /\
    Char.is_quote q1 = true /\ Char.is_quote q2 = true /\
    s = String q1 (path ^^ String q2 rest).
Proof.
  unfold quoted_path, Plus. cbn [rmatch].
  destruct s as [|q1 s1]; [done|]. destruct (Char.is_quote q1) eqn:E1; [|done].
  destruct s1 as [|c s2]; [done|]. destruct (Char.not_quote c) eqn:Ec; [|done].
  intros H. apply star_greedy_split in H as (m & s' & -> & Hm & H).
  destruct s' as [|q2 s']; [done|]. destruct (Char.is_quote q2) eqn:E2; [|done].
  injection H as <- <-.
  exists (String c m), q1, q2.
  change (String c (m ^^ String q2 s')) with (String c m ^^ String q2 s').
  rewrite consumed_app. repeat split; try done. simpl. by rewrite Ec, Hm.
Qed.

Lemma ends_quoted_match (r : regex) :
  ends_quoted r ->
  forall (s rest : string) (cap0 cap : option string),
    rmatch r s cap0 (fun s' cap' => Some (s', cap')) = Some (rest, cap) ->
    exists between path q1 q2,
      cap = Some path /\ path <> EmptyString /\
      Str.forallb Char.not_quote path = true /\
      Char.is_quote q1 = true /\ Char.is_quote q2 = true /\
      s = between ^^ String q1 (path ^^ String q2 rest).
Proof.
  induction 1 as [|r1 r2 Hr2 IH]; intros s rest cap0 cap H.
  - apply quoted_path_match in H as (path & q1 & q2 & H).
    by exists EmptyString, path, q1, q2.
  - cbn [rmatch] in H. apply rmatch_split in H as (m & s1 & cap1 & -> & H).
    apply IH in H as (between & path & q1 & q2 & ? & ? & ? & ? & ? & ->).
    exists (m ^^ between), path, q1, q2. by rewrite StrFacts.app_assoc.
Qed.

Lemma importRegex_keyword : keyword_pattern importRegex.
Proof.
  intros s rest cap. unfold match_here, importRegex.
  set (tail := Seq (Star _) _).
  assert (ends_quoted tail) as Htail by (repeat constructor).
  cbn [rmatch].
  destruct (Str.strip_prefix "import" s) as [s1|] eqn:E1.
  - apply StrFacts.strip_prefix_app in E1 as ->.
    destruct (rmatch tail s1 None _) as [y|] eqn:E.
    + intros [= ->].
      apply (ends_quoted_match tail Htail) in E
        as (between & path & q1 & q2 & ? & ? & ? & ? & ? & ->).
      exists "import", between, path, q1, q2. repeat split; try done. by left.
    + destruct (Str.strip_prefix "require" _) as [s2|] eqn:E2; [|done].
      apply StrFacts.strip_prefix_app in E2. discriminate.
  - destruct (Str.strip_prefix "require" s) as [s2|] eqn:E2; [|done].
    apply StrFacts.strip_prefix_app in E2 as ->. intros E.
    apply (ends_quoted_match tail Htail) in E
      as (between & path & q1 & q2 & ? & ? & ? & ? & ? & ->).
    exists "require", between, path, q1, q2. repeat split; try done. by right.
Qed.

Lemma sideEffectImportRegex_keyword : keyword_pattern sideEffectImportRegex.
Proof.
  intros s rest cap. unfold match_here, sideEffectImportRegex.
  set (tail := Seq (Plus _) _).
  assert (ends_quoted tail) as Htail by (repeat constructor).
  cbn [rmatch].
  destruct (Str.strip_prefix "import" s) as [s1|] eqn:E1; [|done].
  apply StrFacts.strip_prefix_app in E1 as ->. intros E.
  apply (ends_quoted_match tail Htail) in E
    as (between & path & q1 & q2 & ? & ? & ? & ? & ? & ->).
  exists "import", between, path, q1, q2. repeat split; try done. by left.
Qed.

Lemma exec_keyword (r : regex) (s rest : string) (cap : option string) :
  keyword_pattern r -> exec r s = Some (rest, cap) ->
  quoted_after_keyword cap s rest.
Proof.
  intros Hr (pre & t & -> & H)%RegexFacts.exec_suffix.
  apply Hr in H as (keyword & between & path & q1 & q2 & ? & ? & ? & ? & ? & ? & ->).
  by exists path, pre, keyword, between, q1, q2.
Qed.

Lemma quoted_after_keyword_suffix (cap : option string) (a s rest : string) :
  quoted_after_keyword cap s rest -> quoted_after_keyword cap (a ^^ s) rest.
Proof.
  intros (path & before & keyword & between & q1 & q2 & ? & ? & ? & ? & ? & ? & ->).
  exists path, (a ^^ before), keyword, between, q1, q2.
  by rewrite StrFacts.app_assoc.
Qed.

Lemma quoted_after_keyword_rest (cap : option string) (s rest : string) :
  quoted_after_keyword cap s rest -> exists a, s = a ^^ rest.
Proof.
  intros (path & before & keyword & between & q1 & q2 & _ & _ & _ & _ & _ & _ & ->).
  exists (before ^^ keyword ^^ between ^^ String q1 (path ^^ Str.of_char q2)).
  rewrite !StrFacts.app_assoc. do 3 f_equal. cbn [Str.app]. f_equal.
  by rewrite StrFacts.app_assoc.
Qed.

Lemma exec_loop_keyword (r : regex) (fuel : nat) :
  keyword_pattern r ->
  forall s caps, exec_loop fuel r s = Some caps ->
                 Forall (fun cap => exists rest, quoted_after_keyword cap s rest) caps.
Proof.
  intros Hr. induction fuel as [|fuel IH]; intros s caps; [done|].
  cbn [exec_loop]. destruct (exec r s) as [[rest cap]|] eqn:E.
  - destruct (exec_loop fuel r rest) as [caps'|] eqn:E'; [|done].
    intros [= <-]. apply (exec_keyword r) in E; [|done].
    constructor; [by exists rest|].
    destruct (quoted_after_keyword_rest _ _ _ E) as (a & ->).
    eapply Forall_impl; [by apply IH|].
    intros cap' (rest' & H). exists rest'. by apply quoted_after_keyword_suffix.
  - intros [= <-]. constructor.
Qed.

Lemma match_all_keyword (r : regex) (code : string) :
  keyword_pattern r ->
  Forall (fun cap => exists rest, quoted_after_keyword cap code rest) (match_all r code).
Proof.
  intros Hr. unfold match_all.
  destruct (exec_loop (S (Str.length code)) r code) as [caps|] eqn:E; [|constructor].
  by eapply exec_loop_keyword.
Qed.

End CaptureFacts.

(** X10: what the two loops hand to [processPath].  Every capture is a
    path that stands in the text between two quote characters, after an
    [import] or a [require]; it is never absent, never empty and contains
    no quote, so the guard on falsy paths never fires for a path found in
    the text. *)
Theorem extracted_paths_quoted (code : string) (cap : option string) :
  cap ∈ extracted code ->
  exists rest, Notions.quoted_after_keyword cap code rest.
Proof.
  unfold extracted. intros [H|H]%elem_of_app; revert cap H; apply Forall_forall.
  - apply CaptureFacts.match_all_keyword, CaptureFacts.importRegex_keyword.
  - apply CaptureFacts.match_all_keyword, CaptureFacts.sideEffectImportRegex_keyword.
Qed.

Lemma extracted_paths_quoted_witness :
  exists rest, Notions.quoted_after_keyword (Some "./zz") Samples.mixed rest.
Proof.
  apply (extracted_paths_quoted Samples.mixed (Some "./zz")).
  vm_compute. do 2 apply list_elem_of_further. apply list_elem_of_here.
Defined.

(** ** The two sequences of the result *)

Module ResultFacts.
Import Regex Analyzer Spec Notions.

Lemma NoDup_set_delete (x : string) (s : list string) :
  NoDup s -> NoDup (set_delete x s).
Proof.
  induction 1 as [|y l Hy Hl IH]; [constructor|].
  change (set_delete x (y :: l))
    with (if negb (bool_decide (y = x)) then y :: set_delete x l else set_delete x l).
  destruct (negb (bool_decide (y = x))); [|done].
  constructor; [|done]. by intros [Hin _]%AnalyzerFacts.elem_of_set_delete.
Qed.

Lemma processPath_NoDup (path : option string) (st : sets) :
  NoDup (deps st) -> NoDup (locals st) ->
  NoDup (deps (processPath path st)) /\ NoDup (locals (processPath path st)).
Proof.
  intros Hd Hl.
  destruct (AnalyzerFacts.processPath_cases path st)
    as [(p & _ & _ & ->)|[(p & _ & _ & ->)|(_ & ->)]]; cbn [deps locals];
    auto using AnalyzerFacts.NoDup_set_add.
Qed.

Lemma process_all_NoDup (paths : list (option string)) :
  forall st, NoDup (deps st) -> NoDup (locals st) ->
             NoDup (deps (process_all paths st)) /\
             NoDup (locals (process_all paths st)).
Proof.
  unfold process_all. induction paths as [|path paths IH]; intros st Hd Hl; [done|].
  cbn [fold_left]. destruct (processPath_NoDup path st Hd Hl). by apply IH.
Qed.

Lemma delete_all_NoDup (l s : list string) :
  NoDup s -> NoDup (fold_left (fun d x => set_delete x d) l s).
Proof.
  revert s; induction l as [|x l IH]; intros s H; [done|].
  cbn [fold_left]. by apply IH, NoDup_set_delete.
Qed.

(** Splitting a text that has no separator, and one that starts with a
    segment. *)
Lemma split_no_sep (sep : ascii) (s : string) :
  Str.includes (Str.of_char sep) s = false -> Str.split sep s = [s].
Proof.
  induction s as [|c s IH]; [done|].
  intros [H1 H2]%StrFacts.includes_false_head. specialize (IH H2).
  cbn [Str.split]. rewrite IH.
  revert H1. unfold Str.startsWith, Str.of_char. cbn [Str.strip_prefix].
  rewrite Ascii.eqb_sym. by destruct (Ascii.eqb c sep).
Qed.

Lemma split_app_sep (sep : ascii) (a b : string) :
  Str.includes (Str.of_char sep) a = false ->
  Str.split sep (a ^^ String sep b) = a :: Str.split sep b.
Proof.
  induction a as [|c a IH].
  - intros _. cbn [Str.app Str.split]. by rewrite Ascii.eqb_refl.
  - intros [H1 H2]%StrFacts.includes_false_head. specialize (IH H2).
    cbn [Str.app Str.split]. rewrite IH.
    revert H1. unfold Str.startsWith, Str.of_char. cbn [Str.strip_prefix].
    rewrite Ascii.eqb_sym. by destruct (Ascii.eqb c sep).
Qed.

Lemma split_segments (sep : ascii) (s : string) :
  Forall (fun seg => Str.includes (Str.of_char sep) seg = false) (Str.split sep s).
Proof.
  induction s as [|c s IH]; [by repeat constructor|].
  cbn [Str.split]. destruct (Ascii.eqb c sep) eqn:E.
  - constructor; [done|apply IH].
  - destruct (Str.split sep s) as [|q qs]; [by repeat constructor; cbn;
      unfold Str.startsWith; cbn; rewrite Ascii.eqb_sym, E|].
    apply Forall_cons in IH as [Hq Hqs]. constructor; [|done].
    cbn [Str.includes]. rewrite Hq, orb_false_r.
    unfold Str.startsWith, Str.of_char. cbn [Str.strip_prefix].
    by rewrite Ascii.eqb_sym, E.
Qed.

Lemma normalize_installable (path : string) :
  external path = true -> installable (normalize path).
Proof.
  intros He. unfold normalize.
  pose proof (split_segments "/" path) as Hseg.
  pose proof (AnalyzerFacts.split_nonempty "/" path) as Hne.
  pose proof (AnalyzerFacts.join_split "/" path) as Hjoin.
  destruct (Str.split "/" path) as [|p0 ps]; [done|].
  apply Forall_cons in Hseg as [H0 Hps].
  destruct (Str.startsWith "@" path) eqn:Eat.
  - destruct ps as [|p1 ps].
    + left. cbn. by apply split_no_sep.
    + right. apply Forall_cons in Hps as [H1 _]. cbn. rewrite take_0. cbn.
      split.
      * revert Eat. rewrite <- Hjoin. cbn.
        destruct p0; [done|]. unfold Str.startsWith. cbn.
        by destruct (Ascii.eqb "@" a).
      * exists p0, p1. split; [done|].
        change (p0 ^^ String "/" p1) with (p0 ^^ String "/"%char p1).
        rewrite (split_app_sep "/" p0 p1 H0). f_equal. by apply split_no_sep.
  - left. cbn. rewrite take_0. cbn. by apply split_no_sep.
Qed.

Lemma installable_clean (x : string) :
  external x = true -> installable x -> cleanPackageName x = Some x.
Proof.
  intros He Hx. destruct (AnalyzerFacts.cleanPackageName_external x He) as [-> _].
  f_equal. unfold normalize.
  destruct Hx as [->|(Hat & scope & pkg & Hx & ->)].
  - by destruct (Str.startsWith "@" x).
  - rewrite Hat. cbn. by rewrite Hx.
Qed.

End ResultFacts.

(** X11: the two sequences of the result are duplicate-free: a path found
    by both patterns, or written several times, is listed once. *)
Theorem analyze_no_duplicates (code : string) :
  NoDup (Analyzer.dependencies (analyzeDependencies code)) /\
  NoDup (Analyzer.localImports (analyzeDependencies code)).
Proof.
  rewrite AnalyzerFacts.analyze_unfold. cbn [Analyzer.dependencies Analyzer.localImports].
  destruct (ResultFacts.process_all_NoDup (extracted code)
              {| deps := []; locals := [] |}) as [Hd Hl]; try apply NoDup_nil_2.
  unfold clean_up, smart_detection.
  destruct (Str.includes "motion." code || Str.includes "AnimatePresence" code);
    cbn [deps locals]; split; try done;
    apply ResultFacts.delete_all_NoDup; auto using AnalyzerFacts.NoDup_set_add.
Qed.

Example analyze_repeated_import :
  analyzeDependencies
    "import a from 'lodash/a'; import b from 'lodash/b'; import './x.css'; import './x.css'"
  = {| Analyzer.dependencies := ["lodash"]; Analyzer.localImports := ["./x.css"] |}.
Proof. reflexivity. Qed.

(** X12: the implicit dependency.  [framer-motion] is among the
    dependencies exactly when the text contains [motion.] or
    [AnimatePresence] anywhere, or imports a path whose normal form is
    [framer-motion]. *)
Theorem framer_motion_detected (code : string) :
  "framer-motion" ∈ Analyzer.dependencies (analyzeDependencies code) <->
  has_motion_marker code = true \/
  exists path, Some path ∈ extracted code /\ external path = true /\
               normalize path = "framer-motion".
Proof.
  rewrite AnalyzerFacts.elem_of_dependencies. split.
  - intros [_ [[H _]|(p & ? & ? & ?)]]; [by left|right; by exists p].
  - intros H. split; [by_evaluation|].
    destruct H as [H|(p & ? & ? & ?)]; [by left|right; by exists p].
Qed.

(** The marker is looked for as a substring, wherever it stands. *)
Example framer_motion_from_substring :
  analyzeDependencies "import './emotion.css'"
  = {| Analyzer.dependencies := ["framer-motion"];
       Analyzer.localImports := ["./emotion.css"] |}.
Proof. reflexivity. Qed.

(** X13: every dependency is an installable name.  An element of
    [dependencies] is a single segment without a slash or, when it starts
    with [@], possibly a scope and a name around one slash; passing it to
    [cleanPackageName] again returns it unchanged. *)
Theorem dependencies_installable (code : string) (x : string) :
  x ∈ Analyzer.dependencies (analyzeDependencies code) ->
  Notions.installable x /\ cleanPackageName x = Some x.
Proof.
  intros [_ [[_ ->]|(p & _ & He & ->)]]%AnalyzerFacts.elem_of_dependencies.
  - split; [by left|reflexivity].
  - pose proof (ResultFacts.normalize_installable p He) as Hi.
    split; [done|]. apply ResultFacts.installable_clean; [|done].
    by destruct (AnalyzerFacts.cleanPackageName_external p He).
Qed.

Lemma dependencies_installable_witness :
  Notions.installable "@scope/pkg" /\ cleanPackageName "@scope/pkg" = Some "@scope/pkg".
Proof.
  apply (dependencies_installable Samples.import_scoped "@scope/pkg").
  vm_compute. apply list_elem_of_here.
Defined.

(** ** The component *)

Module AppFacts.
Import Generator Notions.

Lemma endsWith_iff (suffix s : string) :
  App.endsWith suffix s = true <-> exists a, s = a ^^ suffix.
Proof.
  induction s as [|c s IH]; cbn [App.endsWith].
  - rewrite orb_false_r, bool_decide_eq_true. split.
    + intros <-. by exists EmptyString.
    + intros ([|] & H); [done|discriminate].
  - rewrite orb_true_iff, bool_decide_eq_true, IH. split.
    + intros [<-|(a & ->)]; [by exists EmptyString|by exists (String c a)].
    + intros ([|c' a] & H); [by left|right].
      injection H as _ ->. by exists a.
Qed.

(** Two suffixes that differ in their last three characters exclude each
    other. *)
Lemma endsWith_exclusive (x x3 y y3 xs ys s : string) :
  x = xs ^^ x3 -> y = ys ^^ y3 ->
  Str.length x3 = Str.length y3 -> x3 <> y3 ->
  App.endsWith x s = true -> App.endsWith y s = false.
Proof.
  intros -> -> Hlen Hne (a & ->)%endsWith_iff. apply not_true_is_false.
  intros (b & H)%endsWith_iff. rewrite <- !StrFacts.app_assoc in H.
  by apply StrFacts.app_inj_tail in H as [_ H].
Qed.

Lemma typed_by_name (name : string) :
  isTS (effective_type (App.detectFileType name)) =
    negb (App.endsWith ".jsx" name || App.endsWith ".js" name).
Proof.
  unfold App.detectFileType.
  destruct (App.endsWith ".tsx" name) eqn:E1.
  { rewrite (endsWith_exclusive ".tsx" "tsx" ".jsx" "jsx" "." "." name),
      (endsWith_exclusive ".tsx" "tsx" ".js" ".js" "." EmptyString name); done. }
  destruct (App.endsWith ".ts" name) eqn:E2.
  { rewrite (endsWith_exclusive ".ts" ".ts" ".jsx" "jsx" EmptyString "." name),
      (endsWith_exclusive ".ts" ".ts" ".js" ".js" EmptyString EmptyString name); done. }
  destruct (App.endsWith ".jsx" name) eqn:E3; [done|].
  by destruct (App.endsWith ".js" name).
Qed.

Lemma generate_job_type (st : App.State) :
  snd (App.generate_job st) = effective_type (App.fileType st).
Proof. unfold App.generate_job. cbn [snd]. by destruct (App.fileType st). Qed.

Lemma generate_job_well_formed (st : App.State) :
  consistent st -> Str.truthy (App.fileContent st) = true ->
  well_formed_job (App.generate_job st).
Proof.
  intros (Htype & Hdeps & Hlocals & _) Hcontent.
  unfold well_formed_job, analysed, App.generate_job. cbn [fst snd].
  cbn [fileContent fileName dependencies localImports].
  split; [by destruct (App.fileContent st)|]. split; [done|].
  rewrite Htype. destruct (App.fileName st); cbn [Str.truthy];
    (split; [done|]); [vm_compute; reflexivity|].
  by destruct (App.detectFileType _).
Qed.

Lemma step_consistent (st : App.State) (e : App.event) :
  consistent st -> consistent (App.step st e).
Proof.
  intros Hst. pose proof Hst as (Htype & Hdeps & Hlocals & Hpending & Hurl).
  destruct e as [[[name text]|]|text|value| |i clock]; cbn [App.step].
  - unfold App.handleFileChange, App.analyzeDeps, consistent.
    cbn [App.fileType App.fileName App.fileContent App.dependencies
         App.localImports App.pending App.downloadUrl].
    repeat split; done.
  - done.
  - unfold App.handleTextChange, App.analyzeDeps, consistent.
    cbn [App.fileType App.fileName App.fileContent App.dependencies
         App.localImports App.pending App.downloadUrl].
    repeat split; try done. by destruct (App.fileName st).
  - unfold App.setProjectName, consistent.
    cbn [App.fileType App.fileName App.fileContent App.dependencies
         App.localImports App.pending App.downloadUrl].
    repeat split; done.
  - unfold App.handleGenerate.
    destruct (Str.truthy (App.fileContent st)) eqn:E; cbn [negb]; [|done].
    unfold consistent.
    cbn [App.fileType App.fileName App.fileContent App.dependencies
         App.localImports App.pending App.downloadUrl].
    repeat split; try done.
    apply Forall_app. split; [done|].
    constructor; [|constructor]. by apply generate_job_well_formed.
  - unfold App.resolveGenerate.
    destruct (App.pending st !! i) as [[config fileType']|] eqn:E; [|done].
    unfold consistent.
    cbn [App.fileType App.fileName App.fileContent App.dependencies
         App.localImports App.pending App.downloadUrl].
    repeat split; try done.
    + by apply Forall_delete.
    + intros archive [= <-]. exists clock, (config, fileType').
      split; [|done]. by apply (Forall_lookup_1 _ _ _ _ Hpending E).
Qed.

Lemma initial_consistent : consistent App.initial.
Proof.
  unfold consistent, App.initial.
  cbn [App.fileType App.fileName App.fileContent App.dependencies
       App.localImports App.pending App.downloadUrl].
  repeat split; done.
Qed.

Lemma run_consistent (events : list App.event) : consistent (App.run events).
Proof.
  unfold App.run.
  assert (forall st, consistent st -> consistent (fold_left App.step events st)) as H.
  { induction events as [|e events IH]; intros st Hst; [done|].
    cbn [fold_left]. by apply IH, step_consistent. }
  apply H, initial_consistent.
Qed.

End AppFacts.

(** X14: the state of the component stays consistent.  After any sequence
    of file choices, edits, renamings, clicks on the button and arrivals
    of archives, the variant in the state is the one [detectFileType]
    gives for the file name in the state, and the two lists shown are the
    analysis of the content in the state. *)
Theorem app_state_consistent (events : list App.event) :
  let st := App.run events in
  App.fileType st = App.detectFileType (App.fileName st) /\
  App.dependencies st =
    Analyzer.dependencies (analyzeDependencies (App.fileContent st)) /\
  App.localImports st =
    Analyzer.localImports (analyzeDependencies (App.fileContent st)).
Proof.
  destruct (AppFacts.run_consistent events) as (H1 & H2 & H3 & _). done.
Qed.

(** X15: where a download comes from.  Whatever the order of events, an
    archive offered for download was generated from a content that is not
    empty, together with the analysis of that very content, under a file
    name that is not empty and with the variant of that name, [UNKNOWN]
    replaced by TSX. *)
Theorem download_provenance (events : list App.event)
    (archive : gmap string ZipObject) :
  App.downloadUrl (App.run events) = Some archive ->
  exists clock config fileType,
    archive = generateProjectZip clock config fileType /\
    fileContent config <> EmptyString /\
    Notions.analysed (fileContent config) config /\
    fileName config <> EmptyString /\
    fileType = Notions.effective_type (App.detectFileType (fileName config)) /\
    fileType <> UNKNOWN.
Proof.
  intros H. destruct (AppFacts.run_consistent events) as (_ & _ & _ & _ & Hurl).
  destruct (Hurl archive H) as (clock & [config fileType] & (H1 & H2 & H3 & H4) & ->).
  exists clock, config, fileType. cbn [fst snd] in *.
  repeat split; try done; try apply H2.
  rewrite H4. by destruct (App.detectFileType _).
Qed.

Lemma download_provenance_witness :
  exists clock config fileType,
    generateProjectZip (fun _ => 0%Z) Samples.widget_config JSX =
      generateProjectZip clock config fileType /\
    fileContent config <> EmptyString /\
    Notions.analysed (fileContent config) config /\
    fileName config <> EmptyString /\
    fileType = Notions.effective_type (App.detectFileType (fileName config)) /\
    fileType <> UNKNOWN.
Proof.
  apply (download_provenance Samples.upload_and_generate
           (generateProjectZip (fun _ => 0%Z) Samples.widget_config JSX)).
  reflexivity.
Defined.

(** The archive that arrives can belong to a content the user has already
    replaced: the download of the sample holds the first text while the
    state holds the second. *)
Example stale_download :
  let st := App.run Samples.edit_during_generation in
  App.fileContent st = "import b from './b'" /\
  App.localImports st = ["./b"] /\
  (tree <$> App.downloadUrl st) ≫= (.!! "src/App.tsx") = Some "import a from './a'".
Proof. repeat split; vm_compute; reflexivity. Qed.

(** X16: the variant of a generated project.  Whatever the events, the
    call of the generator that a click on the button prepares is typed
    (TS or TSX) exactly when the file name in the state ends neither in
    [.jsx] nor in [.js]; a name without a known extension gives a typed
    project. *)
Theorem generated_variant_by_name (events : list App.event) :
  let st := App.run events in
  isTS (snd (App.generate_job st)) =
    negb (App.endsWith ".jsx" (App.fileName st) || App.endsWith ".js" (App.fileName st)).
Proof.
  intros st. destruct (AppFacts.run_consistent events) as (H & _).
  fold st in H. rewrite AppFacts.generate_job_type, H.
  apply AppFacts.typed_by_name.
Qed.

Example detectFileType_samples :
  App.detectFileType "Button.tsx" = TSX /\ App.detectFileType "api.ts" = TS /\
  App.detectFileType "view.jsx" = JSX /\ App.detectFileType "util.js" = JS /\
  App.detectFileType "notes.txt" = UNKNOWN /\ App.detectFileType "x.d.ts" = TS /\
  App.detectFileType "Button.TSX" = UNKNOWN /\ App.detectFileType ".js" = JS.
Proof. repeat split; reflexivity. Qed.

(** ** The two services together *)

Module PipelineFacts.
Import Generator Spec Notions.

Lemma manifest_lookup (config : GeneratedProjectConfig) (fileType : FileType)
    (k : string) :
  Obj.get_own k (pkg_dependencies (packageJson config fileType)) =
    match Obj.get_own k baseDependencies with
    | Some v => Some v
    | None =>
        if bool_decide (k ∈ dependencies config /\ k ∉ Obj.inherited)
        then Some "latest" else None
    end.
Proof.
  apply (ObjFacts.get_own_merge (dependencies config) baseDependencies k
           ObjFacts.base_truthy).
Qed.

Lemma import_has_file (clock : nat -> Z) config fileType (importPath : string) :
  importPath ∈ localImports config ->
  is_Some (tree (generateProjectZip clock config fileType)
             !! ("src/" ^^ fst (ghostFile fileType importPath))).
Proof.
  intros H. rewrite GeneratorFacts.lookup_tree, GeneratorFacts.last_write_is_Some.
  apply list_elem_of_In, in_map_iff.
  exists (src_file (fst (ghostFile fileType importPath))
                   (snd (ghostFile fileType importPath))).
  split; [done|]. by apply list_elem_of_In, LayoutFacts.ghost_call_elem.
Qed.

End PipelineFacts.

(** X17: the project generated from an analysed text.  When the
    dependencies and the local imports of the configuration are the
    analysis of a text, the manifest pins [react] and [react-dom] to the
    baseline version and lists neither [fs] nor [path], even if the text
    imports them; it lists every package the analysis found, the names
    inherited from [Object.prototype] excepted; and the tree has a file
    for every local import the analysis found. *)
Theorem analysed_project (clock : nat -> Z) (code : string)
    (config : GeneratedProjectConfig) (fileType : FileType) :
  Notions.analysed code config ->
  let manifest := pkg_dependencies (packageJson config fileType) in
  Obj.get_own "react" manifest = Some "^19.0.0" /\
  Obj.get_own "react-dom" manifest = Some "^19.0.0" /\
  Obj.get_own "fs" manifest = None /\
  Obj.get_own "path" manifest = None /\
  (forall x, x ∈ Analyzer.dependencies (analyzeDependencies code) ->
             x ∉ Obj.inherited -> is_Some (Obj.get_own x manifest)) /\
  (forall importPath,
     importPath ∈ Analyzer.localImports (analyzeDependencies code) ->
     is_Some (tree (generateProjectZip clock config fileType)
                !! ("src/" ^^ fst (ghostFile fileType importPath)))).
Proof.
  intros (_ & Hdeps & Hlocals) manifest. subst manifest.
  assert (forall x, x ∈ denylist ->
                    x ∉ Analyzer.dependencies (analyzeDependencies code)) as Hdeny.
  { intros x Hx [Hd _]%AnalyzerFacts.elem_of_dependencies. done. }
  rewrite !PipelineFacts.manifest_lookup, Hdeps.
  split; [reflexivity|]. split; [reflexivity|].
  split; [|split; [|split]].
  - change (Obj.get_own "fs" baseDependencies) with (@None string).
    rewrite bool_decide_eq_false_2; [done|].
    intros [H _]. revert H. apply Hdeny. by_evaluation.
  - change (Obj.get_own "path" baseDependencies) with (@None string).
    rewrite bool_decide_eq_false_2; [done|].
    intros [H _]. revert H. apply Hdeny. by_evaluation.
  - intros x Hx Hinh. rewrite PipelineFacts.manifest_lookup, Hdeps.
    destruct (Obj.get_own x baseDependencies); [done|].
    by rewrite bool_decide_eq_true_2.
  - intros importPath Hin. apply PipelineFacts.import_has_file. by rewrite Hlocals.
Qed.

Lemma analysed_project_witness :
  let config :=
    {| fileName := "App.tsx"; fileContent := Samples.import_denied;
       projectName := "demo";
       dependencies := Analyzer.dependencies (analyzeDependencies Samples.import_denied);
       localImports := Analyzer.localImports (analyzeDependencies Samples.import_denied) |} in
  Obj.get_own "react" (pkg_dependencies (packageJson config TSX)) = Some "^19.0.0" /\
  Obj.get_own "fs" (pkg_dependencies (packageJson config TSX)) = None.
Proof.
  intros config.
  destruct (analysed_project Samples.epoch Samples.import_denied config TSX)
    as (H1 & _ & H3 & _).
  - repeat split.
  - split; [exact H1|exact H3].
Defined.

(** ** One import statement *)

Module StatementFacts.
Import Regex Analyzer Notions.

Lemma forallb_app (p : ascii -> bool) (a b : string) :
  Str.forallb p (a ^^ b) = Str.forallb p a && Str.forallb p b.
Proof. induction a as [|c a IH]; simpl; [done|]. by rewrite IH, andb_assoc. Qed.

Lemma quote_not_not_quote (q : ascii) :
  Char.is_quote q = true -> Char.not_quote q = false.
Proof. unfold Char.not_quote. by intros ->. Qed.

(** Where the first quote of a text stands. *)
Lemma first_quote (u v x y : string) (q q1 : ascii) :
  Str.forallb Char.not_quote u = true ->
  Char.is_quote q = true -> Char.is_quote q1 = true ->
  u ^^ String q v = x ^^ String q1 y ->
  (x = u /\ y = v) \/ (exists x', x = u ^^ String q x' /\ v = x' ^^ String q1 y).
Proof.
  intros Hu Hq Hq1. revert x.
  induction u as [|c u IH]; intros [|d x] H; cbn [Str.app] in H.
  - left. by injection H.
  - right. injection H as <- ->. by exists x.
  - injection H as -> _. cbn [Str.forallb] in Hu.
    by rewrite (quote_not_not_quote _ Hq1) in Hu.
  - injection H as -> H. cbn [Str.forallb] in Hu.
    apply andb_true_iff in Hu as [_ Hu].
    destruct (IH Hu x H) as [[-> ->]|(x' & -> & ->)]; [by left|right].
    by exists x'.
Qed.

(** A text with a single quote in it has no match. *)
Lemma no_match_single_quote (r : regex) (p rest : string) (q : ascii) :
  keyword_pattern r ->
  Str.forallb Char.not_quote p = true ->
  Str.forallb Char.not_quote rest = true ->
  Char.is_quote q = true ->
  exec r (p ^^ String q rest) = None.
Proof.
  intros Hr Hp Hrest Hq.
  destruct (exec r (p ^^ String q rest)) as [[rest' cap]|] eqn:E; [exfalso|done].
  apply (CaptureFacts.exec_keyword r) in E; [|done].
  destruct E as (path & before & keyword & between & q1 & q2 & _ & _ & _ & _ & Hq1 & Hq2 & E).
  rewrite <- !StrFacts.app_assoc in E.
  assert (Str.forallb Char.not_quote (path ^^ String q2 rest') = false) as Hno.
  { rewrite forallb_app. cbn [Str.forallb].
    by rewrite (quote_not_not_quote _ Hq2), andb_false_r. }
  apply first_quote in E as [[_ E]|(x' & _ & E)]; try done.
  - rewrite <- E in Hrest. congruence.
  - rewrite E, forallb_app in Hrest. cbn [Str.forallb] in Hrest.
    by rewrite (quote_not_not_quote _ Hq1), andb_false_r in Hrest.
Qed.

Section Greedy.
Context {R : Type} (p : ascii -> bool) (k : string -> option R).

(** A greedy run over [m] that stops at [s] tries [s] first. *)
Lemma star_greedy_first (m s : string) (x : R) :
  Str.forallb p m = true ->
  match s with EmptyString => True | String c _ => p c = false end ->
  k s = Some x ->
  star_greedy p k (m ^^ s) = Some x.
Proof.
  intros Hm Hs Hk. induction m as [|c m IH]; cbn [Str.app].
  - destruct s as [|c s]; cbn [star_greedy]; [done|]. by rewrite Hs.
  - cbn [Str.forallb] in Hm. apply andb_true_iff in Hm as [Hc Hm].
    cbn [star_greedy]. by rewrite Hc, (IH Hm).
Qed.

End Greedy.

(** The tail of the patterns on a path written between two quotes. *)
Lemma quoted_path_exact (path rest : string) (q1 q2 : ascii) (cap : option string) :
  path <> EmptyString ->
  Str.forallb Char.not_quote path = true ->
  Char.is_quote q1 = true -> Char.is_quote q2 = true ->
  rmatch quoted_path (String q1 (path ^^ String q2 rest)) cap final =
    Some (rest, Some path).
Proof.
  intros Hne Hpath Hq1 Hq2. destruct path as [|c path]; [done|].
  cbn [Str.forallb] in Hpath. apply andb_true_iff in Hpath as [Hc Hpath].
  unfold quoted_path, Plus. cbn [rmatch Str.app]. rewrite Hq1, Hc.
  apply star_greedy_first; [done|by apply quote_not_not_quote|].
  rewrite Hq2. unfold final.
  change (String c (path ^^ String q2 rest)) with (String c path ^^ String q2 rest).
  by rewrite CaptureFacts.consumed_app.
Qed.

Lemma importRegex_head (s : string) :
  match_here importRegex s =
    rmatch import_head s None (fun s' cap' => rmatch quoted_path s' cap' final).
Proof. reflexivity. Qed.

Lemma sideEffectImportRegex_head (s : string) :
  match_here sideEffectImportRegex s =
    rmatch side_effect_head s None (fun s' cap' => rmatch quoted_path s' cap' final).
Proof. reflexivity. Qed.

Section Heads.
Context {R : Type} (k : string -> option string -> option R) (tail : string) (x : R).

(** The first attempt that reaches the opening quote is the one that is
    kept. *)
Lemma default_import_head :
  k ("'" ^^ tail) None = Some x ->
  rmatch import_head ("import x from '" ^^ tail) None k = Some x.
Proof. intros H. vm_compute in H. vm_compute. by rewrite H. Qed.

Lemma require_call_head :
  k ("'" ^^ tail) None = Some x ->
  rmatch import_head ("require('" ^^ tail) None k = Some x.
Proof. intros H. vm_compute in H. vm_compute. by rewrite H. Qed.

Lemma side_effect_import_head :
  k ("'" ^^ tail) None = Some x ->
  rmatch side_effect_head ("import '" ^^ tail) None k = Some x.
Proof. intros H. vm_compute in H. vm_compute. by rewrite H. Qed.

End Heads.

(** The second pattern finds nothing before the path of the other two
    statements. *)
Lemma side_effect_skips_default (tail : string) :
  exec sideEffectImportRegex ("import x from '" ^^ tail) =
    exec sideEffectImportRegex tail.
Proof. vm_compute. reflexivity. Qed.

Lemma side_effect_skips_require (tail : string) :
  exec sideEffectImportRegex ("require('" ^^ tail) = exec sideEffectImportRegex tail.
Proof. vm_compute. reflexivity. Qed.

Lemma includes_here (pat b : string) : Str.includes pat (pat ^^ b) = true.
Proof.
  assert (Str.startsWith pat (pat ^^ b) = true) as H.
  { unfold Str.startsWith.
    by rewrite (proj2 (StrFacts.strip_prefix_app pat (pat ^^ b) b) eq_refl). }
  destruct (pat ^^ b); cbn [Str.includes]; by rewrite H.
Qed.

Lemma includes_app_r (pat a b : string) :
  Str.includes pat b = true -> Str.includes pat (a ^^ b) = true.
Proof.
  intros H. induction a as [|c a IH]; [done|].
  cbn [Str.app Str.includes]. rewrite IH. apply orb_true_r.
Qed.

(** Between the keyword and the quote, a match of the first pattern has a
    parenthesis or a [from]. *)
Lemma importRegex_between (s rest : string) (cap : option string) :
  match_here importRegex s = Some (rest, cap) ->
  exists keyword between tail,
    (keyword = "import" \/ keyword = "require") /\
    (Str.includes "(" between = true \/ Str.includes "from" between = true) /\
    s = keyword ^^ between ^^ tail /\
    rmatch quoted_path tail None final = Some (rest, cap).
Proof.
  rewrite importRegex_head. unfold import_head.
  set (K := fun s' cap' => rmatch quoted_path s' cap' final).
  set (tail := Seq (Star Char.is_space) _).
  assert (forall s1, rmatch tail s1 None K = Some (rest, cap) ->
            exists between tail,
              (Str.includes "(" between = true \/ Str.includes "from" between = true) /\
              s1 = between ^^ tail /\
              rmatch quoted_path tail None final = Some (rest, cap)) as Hrest.
  { intros s1 H. unfold tail in H. cbn [rmatch] in H.
    apply CaptureFacts.star_greedy_split in H as (ws & s2 & -> & _ & H).
    destruct (Str.strip_prefix "(" s2) as [s3|] eqn:E3.
    - apply StrFacts.strip_prefix_app in E3 as ->.
      destruct (star_greedy Char.is_space (fun s' => K s' None) s3) as [y|] eqn:E.
      + injection H as ->.
        apply CaptureFacts.star_greedy_split in E as (ws' & s4 & -> & _ & E).
        exists (ws ^^ "(" ^^ ws'), s4. split; [|split; [|done]].
        * left. apply includes_app_r, includes_here.
        * by rewrite !StrFacts.app_assoc.
      + apply CaptureFacts.star_lazy_split in H as (m & s4 & E4 & _ & H).
        destruct (Str.strip_prefix "from" s4) as [s5|] eqn:E5; [|done].
        apply StrFacts.strip_prefix_app in E5 as ->.
        apply CaptureFacts.star_greedy_split in H as (ws' & s6 & -> & _ & H).
        exists (ws ^^ m ^^ "from" ^^ ws'), s6. split; [|split; [|done]].
        * right. apply includes_app_r, includes_app_r, includes_here.
        * rewrite E4. by rewrite !StrFacts.app_assoc.
    - apply CaptureFacts.star_lazy_split in H as (m & s4 & -> & _ & H).
      destruct (Str.strip_prefix "from" s4) as [s5|] eqn:E5; [|done].
      apply StrFacts.strip_prefix_app in E5 as ->.
      apply CaptureFacts.star_greedy_split in H as (ws' & s6 & -> & _ & H).
      exists (ws ^^ m ^^ "from" ^^ ws'), s6. split; [|split; [|done]].
      * right. apply includes_app_r, includes_app_r, includes_here.
      * by rewrite !StrFacts.app_assoc. }
  cbn [rmatch].
  destruct (Str.strip_prefix "import" s) as [s1|] eqn:E1.
  - apply StrFacts.strip_prefix_app in E1 as ->.
    destruct (rmatch tail s1 None K) as [y|] eqn:E.
    + intros [= ->]. apply Hrest in E as (between & t & ? & -> & ?).
      exists "import", between, t. repeat split; try done. by left.
    + destruct (Str.strip_prefix "require" _) as [s2|] eqn:E2; [|done].
      apply StrFacts.strip_prefix_app in E2. discriminate.
  - destruct (Str.strip_prefix "require" s) as [s2|] eqn:E2; [|done].
    apply StrFacts.strip_prefix_app in E2 as ->. intros E.
    apply Hrest in E as (between & t & ? & -> & ?).
    exists "require", between, t. repeat split; try done. by right.
Qed.

(** The first pattern finds nothing in a side-effect import. *)
Lemma importRegex_side_effect (path : string) :
  Str.forallb Char.not_quote path = true ->
  exec importRegex (side_effect_import path) = None.
Proof.
  intros Hpath. unfold side_effect_import.
  destruct (exec importRegex _) as [[rest cap]|] eqn:E; [exfalso|done].
  apply RegexFacts.exec_suffix in E as (pre & t & Ht & E).
  apply importRegex_between in E as (keyword & between & tail & _ & Hb & -> & E).
  apply CaptureFacts.quoted_path_match in E
    as (p & q1 & q2 & _ & Hne & _ & Hq1 & Hq2 & ->).
  change ("import '" ^^ path ^^ "'") with ("import " ^^ String "'" (path ^^ "'")) in Ht.
  rewrite <- !StrFacts.app_assoc in Ht.
  apply first_quote in Ht as [[Hx _]|(x' & _ & Hv)]; try done.
  - assert (forall pat, Str.includes pat between = true ->
                        Str.includes pat "import " = true) as Hinc.
    { intros pat H. rewrite <- Hx, !StrFacts.app_assoc.
      by apply includes_app_r, includes_app_r. }
    destruct Hb as [Hb%Hinc|Hb%Hinc]; vm_compute in Hb; discriminate.
  - change (path ^^ "'") with (path ^^ String "'" EmptyString) in Hv.
    apply first_quote in Hv as [[_ Hv]|(x'' & _ & Hv)]; try done.
    + by destruct p.
    + by destruct x''.
Qed.

Lemma exec_here (r : regex) (s : string) (x : result) :
  match_here r s = Some x -> exec r s = Some x.
Proof. intros H. destruct s; cbn [exec]; by rewrite H. Qed.

(** A loop with a single match, and one with none. *)
Lemma match_all_single (r : regex) (c : ascii) (s rest : string) (cap : option string) :
  exec r (String c s) = Some (rest, cap) -> exec r rest = None ->
  match_all r (String c s) = [cap].
Proof.
  intros H1 H2. unfold match_all. cbn [Str.length exec_loop].
  rewrite H1. destruct rest; cbn [exec] in *; by rewrite H2.
Qed.

Lemma match_all_none (r : regex) (s : string) :
  exec r s = None -> match_all r s = [].
Proof. intros H. unfold match_all. cbn [exec_loop]. by rewrite H. Qed.

End StatementFacts.

(** X18: an import statement gives its path back.  For every path that is
    not empty and has no quote in it, each of the three statements
    [import x from 'path'], [import 'path'] and [require('path')] hands
    exactly that path to [processPath], once: the first pattern finds the
    default import and the call of [require] and nothing in the side-effect
    import, which only the second pattern finds. *)
Theorem statement_round_trip (path : string) :
  path <> EmptyString ->
  Str.forallb Char.not_quote path = true ->
  (match_all importRegex (Notions.default_import path) = [Some path] /\
   match_all sideEffectImportRegex (Notions.default_import path) = []) /\
  (match_all importRegex (Notions.side_effect_import path) = [] /\
   match_all sideEffectImportRegex (Notions.side_effect_import path) = [Some path]) /\
  (match_all importRegex (Notions.require_call path) = [Some path] /\
   match_all sideEffectImportRegex (Notions.require_call path) = []).
Proof.
  intros Hne Hpath. repeat split.
  - apply (StatementFacts.match_all_single _ "i" _ EmptyString); [|reflexivity].
    apply StatementFacts.exec_here. rewrite StatementFacts.importRegex_head.
    apply (StatementFacts.default_import_head _ (path ^^ "'")).
    by apply (StatementFacts.quoted_path_exact path EmptyString "'" "'").
  - apply StatementFacts.match_all_none. unfold Notions.default_import.
    rewrite StatementFacts.side_effect_skips_default.
    apply (StatementFacts.no_match_single_quote _ path EmptyString "'");
      [apply CaptureFacts.sideEffectImportRegex_keyword|done..].
  - by apply StatementFacts.match_all_none, StatementFacts.importRegex_side_effect.
  - apply (StatementFacts.match_all_single _ "i" _ EmptyString); [|reflexivity].
    apply StatementFacts.exec_here. rewrite StatementFacts.sideEffectImportRegex_head.
    apply (StatementFacts.side_effect_import_head _ (path ^^ "'")).
    by apply (StatementFacts.quoted_path_exact path EmptyString "'" "'").
  - apply (StatementFacts.match_all_single _ "r" _ ")"); [|reflexivity].
    apply StatementFacts.exec_here. rewrite StatementFacts.importRegex_head.
    apply (StatementFacts.require_call_head _ (path ^^ "')")).
    by apply (StatementFacts.quoted_path_exact path ")" "'" "'").
  - apply StatementFacts.match_all_none. unfold Notions.require_call.
    rewrite StatementFacts.side_effect_skips_require.
    apply (StatementFacts.no_match_single_quote _ path ")" "'");
      [apply CaptureFacts.sideEffectImportRegex_keyword|done..].
Qed.

Lemma statement_round_trip_witness :
  match_all importRegex "import x from '@scope/pkg/deep'" = [Some "@scope/pkg/deep"] /\
  match_all sideEffectImportRegex "import './styles.css'" = [Some "./styles.css"].
Proof.
  split.
  - apply (statement_round_trip "@scope/pkg/deep"); [discriminate|reflexivity].
  - apply (statement_round_trip "./styles.css"); [discriminate|reflexivity].
Defined.

(** ** The result as a function of the captures *)

Module OrderFacts.
Import Regex Analyzer Spec Notions.

Lemma keep_first_snoc (l : list string) (x : string) :
  keep_first (l ++ [x]) = set_add x (keep_first l).
Proof.
  unfold keep_first, set_add. rewrite rev_app_distr. cbn [rev app remove_dups].
  destruct (decide_rel elem_of x (rev l)) as [Hin|Hin].
  - rewrite decide_True; [done|].
    by rewrite list_elem_of_In, <- in_rev, <- list_elem_of_In, elem_of_remove_dups.
  - rewrite decide_False; [done|].
    by rewrite list_elem_of_In, <- in_rev, <- list_elem_of_In, elem_of_remove_dups.
Qed.

Lemma process_all_snoc (paths : list (option string)) (path : option string) (st : sets) :
  process_all (paths ++ [path]) st = processPath path (process_all paths st).
Proof. unfold process_all. by rewrite fold_left_app. Qed.

Lemma package_names_snoc (paths : list (option string)) (cap : option string) :
  package_names (paths ++ [cap]) =
    package_names paths ++
    match cap with
    | Some p => if external p then [normalize p] else []
    | None => []
    end.
Proof.
  unfold package_names. rewrite omap_app. f_equal.
  destruct cap as [p|]; [|done]. unfold omap, list_omap. by destruct (external p).
Qed.

Lemma local_paths_snoc (paths : list (option string)) (cap : option string) :
  local_paths (paths ++ [cap]) =
    local_paths paths ++
    match cap with
    | Some p => if starts_local p then [p] else []
    | None => []
    end.
Proof.
  unfold local_paths. rewrite omap_app. f_equal.
  destruct cap as [p|]; [|done]. unfold omap, list_omap. by destruct (starts_local p).
Qed.

Lemma process_all_keep_first (paths : list (option string)) :
  process_all paths {| deps := []; locals := [] |} =
    {| deps := keep_first (package_names paths);
       locals := keep_first (local_paths paths) |}.
Proof.
  induction paths as [|path paths IH] using rev_ind; [done|].
  rewrite process_all_snoc, IH, package_names_snoc, local_paths_snoc.
  destruct (AnalyzerFacts.processPath_cases path
              {| deps := keep_first (package_names paths);
                 locals := keep_first (local_paths paths) |})
    as [(p & -> & He & ->)|[(p & -> & Hl & ->)|(Hp & ->)]]; cbn [deps locals].
  - rewrite He. pose proof He as [_ Hl%negb_true_iff]%andb_true_iff. rewrite Hl.
    by rewrite keep_first_snoc, app_nil_r.
  - rewrite Hl. unfold external. rewrite Hl, andb_false_r.
    by rewrite keep_first_snoc, app_nil_r.
  - destruct Hp as [-> | ->]; by rewrite !app_nil_r.
Qed.

Lemma delete_all_cons (l : list string) (y : string) :
  forall s, fold_left (fun d x => set_delete x d) l (y :: s) =
            if bool_decide (y ∈ l) then fold_left (fun d x => set_delete x d) l s
            else y :: fold_left (fun d x => set_delete x d) l s.
Proof.
  induction l as [|x l IH]; intros s; [done|]. cbn [fold_left].
  change (set_delete x (y :: s))
    with (if negb (bool_decide (y = x)) then y :: set_delete x s else set_delete x s).
  destruct (decide (y = x)) as [->|Hne].
  - rewrite (bool_decide_eq_true_2 (x = x)) by done. cbn [negb].
    rewrite (bool_decide_eq_true_2 (x ∈ x :: l)); [done|apply list_elem_of_here].
  - rewrite (bool_decide_eq_false_2 (y = x)) by done. cbn [negb].
    rewrite IH. destruct (bool_decide (y ∈ l)) eqn:El.
    + rewrite bool_decide_eq_true_2; [done|].
      apply list_elem_of_further. by apply bool_decide_eq_true in El.
    + rewrite bool_decide_eq_false_2; [done|].
      apply bool_decide_eq_false in El. by intros [?|?]%elem_of_cons.
Qed.

Lemma delete_all_filter (l s : list string) :
  fold_left (fun d x => set_delete x d) l s =
    List.filter (fun y => negb (bool_decide (y ∈ l))) s.
Proof.
  induction s as [|y s IH].
  - induction l as [|x l IHl]; [done|apply IHl].
  - rewrite delete_all_cons, IH. cbn [List.filter].
    by destruct (bool_decide (y ∈ l)).
Qed.

End OrderFacts.

(** X19: the result as a function of the captures.  [localImports] lists
    the captured paths that start with [.] or [/], each once, in the order
    in which they first occur.  [dependencies] lists the normal forms of
    the other captured paths, followed by [framer-motion] when a marker of
    the animation library is in the text, each once and in the order of
    first occurrence, without the four names of the denylist. *)
Theorem analyze_first_seen_order (code : string) :
  Analyzer.localImports (analyzeDependencies code) =
    Notions.keep_first (Notions.local_paths (extracted code)) /\
  Analyzer.dependencies (analyzeDependencies code) =
    List.filter (fun x => negb (bool_decide (x ∈ denylist)))
      (Notions.keep_first
         (Notions.package_names (extracted code) ++
          if has_motion_marker code then ["framer-motion"] else [])).
Proof.
  rewrite AnalyzerFacts.analyze_unfold, OrderFacts.process_all_keep_first.
  cbn [Analyzer.localImports Analyzer.dependencies].
  unfold clean_up, smart_detection, has_motion_marker.
  destruct (Str.includes "motion." code || Str.includes "AnimatePresence" code);
    cbn [deps locals]; (split; [done|]); rewrite OrderFacts.delete_all_filter.
  - by rewrite OrderFacts.keep_first_snoc.
  - by rewrite app_nil_r.
Qed.

Example analyze_order_sample :
  analyzeDependencies
    ("import b from 'b/x'; import a from '@a/a/y'; import './z'; " ^^
     "import c from 'b'; import y from './y'; const m = <motion.div/>")
  = {| Analyzer.dependencies := ["b"; "@a/a"; "framer-motion"];
       Analyzer.localImports := ["./y"; "./z"] |}.
Proof. reflexivity. Qed.

(** ** Components stored under a path that keeps its extension *)

Module SegmentFacts.
Import Generator Spec.

(** A separator in a text leaves the segments after it as they are. *)
Lemma split_after_sep (sep : ascii) (a b : string) :
  exists front, front <> [] /\
    Str.split sep (a ^^ String sep b) = front ++ Str.split sep b.
Proof.
  induction a as [|c a (front & Hne & IH)].
  - exists [EmptyString]. split; [done|].
    cbn [Str.app Str.split]. by rewrite Ascii.eqb_refl.
  - cbn [Str.app Str.split]. rewrite IH. destruct (Ascii.eqb c sep).
    + by exists (EmptyString :: front).
    + destruct front as [|p ps]; [done|]. by exists (String c p :: ps).
Qed.

(** The final segment of a path is what follows its last slash, and the
    whole path when it has none. *)
Lemma lastPart_final (dir seg : string) :
  Str.includes "/" seg = false -> lastPart (dir ^^ "/" ^^ seg) = seg.
Proof.
  intros H. unfold lastPart.
  destruct (split_after_sep "/" dir seg) as (front & _ & E).
  change (dir ^^ "/" ^^ seg) with (dir ^^ String "/" seg).
  rewrite E, (ResultFacts.split_no_sep "/" seg H). apply List.last_last.
Qed.

Lemma lastPart_whole (path : string) :
  Str.includes "/" path = false -> lastPart path = path.
Proof.
  intros H. unfold lastPart. by rewrite (ResultFacts.split_no_sep "/" path H).
Qed.

(** The loop looks at the cleaned path only. *)
Lemma ghostFile_cleanPath (fileType : FileType) (a b : string) :
  cleanPath a = cleanPath b -> ghostFile fileType a = ghostFile fileType b.
Proof. unfold ghostFile. by intros ->. Qed.

(** An entry with a dot in its final segment is stored under its cleaned
    path; one without receives the extension of the variant. *)
Lemma ghostFile_dot_cases (fileType : FileType) (importPath : string) :
  (Str.includes "." (lastPart (cleanPath importPath)) = true /\
   fst (ghostFile fileType importPath) = cleanPath importPath) \/
  (Str.includes "." (lastPart (cleanPath importPath)) = false /\
   fst (ghostFile fileType importPath) =
     cleanPath importPath ^^ component_extension fileType).
Proof.
  destruct (Str.includes "." (lastPart (cleanPath importPath))) eqn:E.
  - left. split; [done|]. unfold ghostFile. rewrite E.
    by repeat (destruct (test _ _)).
  - right. split; [done|]. by rewrite (GeneratorFacts.ghostFile_no_dot _ _ E).
Qed.

(** The text of a placeholder component names the missing file and
    declares the identifier. *)
Lemma dummyContent_declaration (path id : string) :
  exists rest,
    dummyContent path id =
      nl ^^ "import React from 'react';" ^^ nl ^^
      "// Ghost Component generated to prevent build errors" ^^ nl ^^
      "// Missing file: " ^^ path ^^ nl ^^
      "const " ^^ id ^^ " = (props: any) => (" ^^ nl ^^ rest.
Proof.
  unfold dummyContent.
  match goal with
  | |- ex (fun rest => nl ^^ Str.lines ?l = _) =>
      exists (Str.lines (drop 4 l));
      change l with (take 4 l ++ drop 4 l)
  end.
  rewrite GeneratorFacts.lines_app. cbn [take]. unfold Str.lines at 1.
  cbn [List.map Str.concat fold_right].
  by rewrite StrFacts.app_nil_r, !StrFacts.app_assoc.
Qed.

End SegmentFacts.

(** C9, as stated, fails: with the local imports [./Comp.jsx] and [./Comp]
    and the variant JSX, the entry [./Comp.jsx] has a dot in its final
    segment and no recognised extension, yet the file under [src/Comp.jsx]
    is the component of the later entry [./Comp], whose identifier is
    [Comp] and has nothing of the extension in it. *)
Lemma ghost_extension_counterexample :
  "./Comp.jsx" ∈ localImports Samples.colliding_extension /\
  Str.includes "." (lastPart (cleanPath "./Comp.jsx")) = true /\
  unrecognised (lastPart (cleanPath "./Comp.jsx")) /\
  tree (generateProjectZip Samples.epoch Samples.colliding_extension JSX)
    !! ("src/" ^^ cleanPath "./Comp.jsx") = Some (dummyContent "Comp" "Comp") /\
  ~ (tree (generateProjectZip Samples.epoch Samples.colliding_extension JSX)
       !! ("src/" ^^ cleanPath "./Comp.jsx") =
     Some (dummyContent (cleanPath "./Comp.jsx")
             (componentName (lastPart (cleanPath "./Comp.jsx"))))).
Proof.
  split; [apply list_elem_of_here|]. split; [reflexivity|].
  split; [apply GeneratorFacts.unrecognised_tests; by vm_compute|].
  split; [vm_compute; reflexivity|].
  vm_compute. discriminate.
Qed.

(** The colliding imports are what the analyzer extracts from the content
    of that sample. *)
Example colliding_extension_from_analysis :
  Analyzer.localImports
    (analyzeDependencies (fileContent Samples.colliding_extension)) =
    localImports Samples.colliding_extension.
Proof. reflexivity. Qed.

(** C9 (amended): for an entry of [localImports] whose final segment has a
    dot but no recognised stylesheet, image or json extension, the loop
    stores a placeholder component under the cleaned path as it is, without
    the extension of the variant, and the generated tree holds it there
    provided no later entry without a dot in its final segment receives
    that very path by getting the extension of the variant.  The final
    segment is what follows the last slash of the cleaned path (the whole
    path when it has none); the identifier is made of the alphanumeric
    characters of that whole segment, those of the extension included,
    [Component] when there is none; the text names the missing file,
    declares the identifier and exports it as the default export and under
    the name ending in [Named]. *)
Theorem ghost_component_unrecognised_extension (clock : nat -> Z)
    (config : GeneratedProjectConfig) (fileType : FileType)
    (before after : list string) (importPath : string) :
  localImports config = before ++ importPath :: after ->
  Str.includes "." (lastPart (cleanPath importPath)) = true ->
  unrecognised (lastPart (cleanPath importPath)) ->
  (forall other, other ∈ after ->
     Str.includes "." (lastPart (cleanPath other)) = false ->
     cleanPath other ^^ component_extension fileType <> cleanPath importPath) ->
  let path := cleanPath importPath in
  let last := lastPart path in
  let id := componentName last in
  tree (generateProjectZip clock config fileType) !! ("src/" ^^ path) =
    Some (dummyContent path id) /\
  (forall dir seg, path = dir ^^ "/" ^^ seg ->
     Str.includes "/" seg = false -> last = seg) /\
  (Str.includes "/" path = false -> last = path) /\
  id = (if Str.truthy (Str.filter Char.is_alnum last)
        then Str.filter Char.is_alnum last else "Component") /\
  (forall stem e, last = stem ^^ "." ^^ e ->
     Str.filter Char.is_alnum last =
       Str.filter Char.is_alnum stem ^^ Str.filter Char.is_alnum e) /\
  Str.forallb Char.is_alnum id = true /\
  (exists rest,
     dummyContent path id =
       nl ^^ "import React from 'react';" ^^ nl ^^
       "// Ghost Component generated to prevent build errors" ^^ nl ^^
       "// Missing file: " ^^ path ^^ nl ^^
       "const " ^^ id ^^ " = (props: any) => (" ^^ nl ^^ rest) /\
  (exists body,
     dummyContent path id =
       body ^^ "export default " ^^ id ^^ ";" ^^ nl ^^
       "export const " ^^ id ^^ "Named = " ^^ id ^^ ";" ^^ nl).
Proof.
  intros Hsplit Hdot Hunrec Hlater path last id.
  pose proof (GeneratorFacts.ghostFile_unrecognised fileType importPath Hdot Hunrec)
    as Hghost. fold path last id in Hghost.
  split; [|split; [|split; [|split; [reflexivity|split; [|split; [|split]]]]]].
  - pose proof (LayoutFacts.ghost_last_writer clock config fileType before after
                  importPath Hsplit) as Hlast.
    rewrite Hghost in Hlast. cbn [fst snd] in Hlast. apply Hlast.
    + intros other Hother Hsame.
      destruct (SegmentFacts.ghostFile_dot_cases fileType other) as [[_ E]|[Hno E]].
      * rewrite E in Hsame.
        by rewrite (SegmentFacts.ghostFile_cleanPath fileType other importPath Hsame),
                   Hghost.
      * rewrite E in Hsame. by destruct (Hlater other Hother Hno).
    + intros Hcss. apply (Hunrec "index" "css"); [|by_evaluation].
      fold path. by rewrite Hcss.
  - intros dir seg Hpath Hseg. unfold last. rewrite Hpath.
    by apply SegmentFacts.lastPart_final.
  - apply SegmentFacts.lastPart_whole.
  - intros stem e ->. by rewrite !GeneratorFacts.filter_app.
  - apply GeneratorFacts.componentName_alnum.
  - apply SegmentFacts.dummyContent_declaration.
  - apply GeneratorFacts.dummyContent_exports.
Qed.

Lemma ghost_component_unrecognised_extension_witness :
  tree (generateProjectZip Samples.ticking Samples.widgets JSX)
    !! "src/widgets/Comp.jsx" = Some (dummyContent "widgets/Comp.jsx" "Compjsx") /\
  lastPart "widgets/Comp.jsx" = "Comp.jsx" /\
  Str.filter Char.is_alnum "Comp.jsx" = "Comp" ^^ "jsx".
Proof.
  destruct (ghost_component_unrecognised_extension Samples.ticking Samples.widgets
              JSX ["./widgets/Card"] ["./widgets/theme.css"; "./widgets/Other"]
              "./widgets/Comp.jsx")
    as (Htree & Hseg & _ & _ & Hfilter & _).
  - reflexivity.
  - reflexivity.
  - apply GeneratorFacts.unrecognised_tests. by vm_compute.
  - intros other Hother _. by_evaluation_in Hother.
  - split; [exact Htree|]. split.
    + apply (Hseg "widgets" "Comp.jsx"); reflexivity.
    + apply (Hfilter "Comp" "jsx"). reflexivity.
Defined.
